(** * Shutdown orchestration and readiness gate of the k8s-test server

    A shallow embedding of the Go sources of the repository:
    - [Part000]  : the revision with tracing ([newTracer], [main], [NewRoutes],
                   [ReadinessHandler]) found in src/unnamed/part_000;
    - [Part001]  : the revision without tracing found in src/unnamed/part_001;
    - [CmdServer]: src/cmd/server/tracer.go.

    Go functions are written as programs over the calls they make to the
    runtime and to libraries ([prog], a free monad); a handler gives every call
    its effect on an explicit process state.  Two interpreters run the same
    programs: [run] executes a program to completion, [exec] executes it one
    call at a time while signals are delivered in between. *)

From Stdlib Require Import ZArith List String Ascii Bool Lia.
Import ListNotations.
Local Open Scope string_scope.
Local Open Scope list_scope.
Local Open Scope Z_scope.

(** ** Values of the Go program *)

(** [time.Duration] counts nanoseconds. *)
Definition Duration := Z.
Definition Second : Duration := 1000000000.

Inductive error :=
| DeadlineExceeded            (* context.DeadlineExceeded *)
| Canceled                    (* context.Canceled *)
| ErrServerClosed             (* http.ErrServerClosed *)
| ErrOther (msg : string).

(** The contexts [main] creates, by the name of the variable that holds them. *)
Inductive ctx := Background | rootCtx | ongoingCtx | shutdownCtx.

Inductive level := Info | Error.
Inductive sampler := AlwaysSample | NeverSample.
Inductive exporter := otlptracehttp | otlptracegrpc.

(** Every call [main] and the functions it uses make to the outside. *)
Inductive call :=
| slog_SetDefault
| slog_Log (l : level) (msg : string)
| signal_NotifyContext                 (* rootCtx, stop := signal.NotifyContext(.., SIGINT, SIGTERM) *)
| stop                                 (* stop() *)
| context_WithCancel                   (* ongoingCtx, stopOngoingGracefully := context.WithCancel(..) *)
| stopOngoingGracefully
| context_WithTimeout (d : Duration)   (* shutdownCtx, cancel := context.WithTimeout(.., d) *)
| cancel
| resource_New (service version environment : string)
| otel_SetErrorHandler
| exporter_New (e : exporter)
| sdktrace_NewTracerProvider (s : sampler)
| otel_SetTracerProvider
| otel_GetTracerProvider
| tp_Tracer (name : string)
| tp_Shutdown (c : ctx)                (* the cleanup newTracer returns *)
| http_NewServeMux
| mux_Handle (pattern : string)
| atomic_Store (b : bool)              (* available.Store(b) *)
| atomic_Load                          (* available.Load() *)
| os_Getenv (key : string)
| go_produceTraces (c : ctx)
| go_ListenAndServe (addr : string) (base : ctx)
| rootCtx_Done                         (* <-rootCtx.Done() *)
| time_Sleep (d : Duration)
| Server_Shutdown (c : ctx)            (* s.Shutdown(c) *)
| tracer_Start (name ua : string)
| span_AddEvent (name : string)
| span_End
| http_Error (msg : string) (code : Z).

(** What a call returns. *)
Definition answer (c : call) : Type :=
  match c with
  | resource_New _ _ _ | exporter_New _ | tp_Shutdown _ | Server_Shutdown _ => option error
  | os_Getenv _ => string
  | atomic_Load => bool
  | _ => unit
  end.

Inductive value := VUnit | VErr (e : option error) | VStr (s : string) | VBool (b : bool).

Definition to_value (c : call) : answer c -> value :=
  match c as c0 return answer c0 -> value with
  | resource_New _ _ _ | exporter_New _ | tp_Shutdown _ | Server_Shutdown _ => VErr
  | os_Getenv _ => VStr
  | atomic_Load => VBool
  | _ => fun _ => VUnit
  end.

(** ** Programs *)

(** A Go function body: it returns, panics, or makes a call and continues with
    the call's answer. *)
Inductive prog (A : Type) : Type :=
| Ret (a : A)
| Panic (e : error)
| Call (c : call) (k : answer c -> prog A).

Arguments Ret {A} a.
Arguments Panic {A} e.
Arguments Call {A} c k.

Fixpoint bind {A B : Type} (p : prog A) (f : A -> prog B) : prog B :=
  match p with
  | Ret a => f a
  | Panic e => Panic e
  | Call c k => Call c (fun x => bind (k x) f)
  end.

Definition do (c : call) : prog (answer c) := Call c Ret.

(** [defer d; body]: [d] runs when the surrounding function returns or
    panics.  Nested uses run last-deferred first, as in Go. *)
Fixpoint defer {A : Type} (d : prog unit) (body : prog A) : prog A :=
  match body with
  | Ret a => bind d (fun _ => Ret a)
  | Panic e => bind d (fun _ => Panic e)
  | Call c k => Call c (fun x => defer d (k x))
  end.

Declare Scope prog_scope.
Delimit Scope prog_scope with prog.
Notation "x <- p ;; q" := (bind p (fun x => q))
  (at level 61, p at next level, right associativity) : prog_scope.
Notation "p ;; q" := (bind p (fun _ => q))
  (at level 61, right associativity) : prog_scope.
Local Open Scope prog_scope.

(** ** The process state and the environment *)

Record response := mkResponse { status : Z; body : string }.

(** One completed call: when it was made, when it returned, and its answer. *)
Record event := mkEvent { t_call : Z; t_ret : Z; what : call; result : value }.

Record state := mkState {
  clock : Z;                       (* nanoseconds since process start *)
  trace : list event;              (* oldest first *)
  notifying : bool;                (* SIGINT/SIGTERM are relayed to rootCtx *)
  root_done : bool;                (* rootCtx is cancelled *)
  ongoing_done : bool;             (* ongoingCtx is cancelled *)
  deadline : option Z;             (* deadline of shutdownCtx, once created *)
  shutdown_cancelled : bool;       (* cancel() was called *)
  available : bool;                (* the atomic.Bool of the readiness handler *)
  responses : list response        (* what the health handler wrote, oldest first *)
}.

Definition init : state :=
  mkState 0 [] false false false None false false [].

(** The answers of the environment: the process environment, and what the
    collaborators return and how long they take. *)
Record world := mkWorld {
  HOST : string;
  PORT : string;
  resource_err : option error;     (* resource.New *)
  exporter_err : option error;     (* otlptracehttp.New / otlptracegrpc.New *)
  uptime : Duration;               (* how long main waits for the signal *)
  Shutdown_elapsed : Duration;     (* s.Shutdown *)
  Shutdown_err : option error;
  flush_elapsed : Duration;        (* tp.Shutdown *)
  flush_err : option error
}.

Definition set_clock (t : Z) (s : state) : state :=
  mkState t (trace s) (notifying s) (root_done s) (ongoing_done s)
          (deadline s) (shutdown_cancelled s) (available s) (responses s).
Definition set_trace (tr : list event) (s : state) : state :=
  mkState (clock s) tr (notifying s) (root_done s) (ongoing_done s)
          (deadline s) (shutdown_cancelled s) (available s) (responses s).
Definition set_notifying (b : bool) (s : state) : state :=
  mkState (clock s) (trace s) b (root_done s) (ongoing_done s)
          (deadline s) (shutdown_cancelled s) (available s) (responses s).
Definition set_root_done (b : bool) (s : state) : state :=
  mkState (clock s) (trace s) (notifying s) b (ongoing_done s)
          (deadline s) (shutdown_cancelled s) (available s) (responses s).
Definition set_ongoing_done (b : bool) (s : state) : state :=
  mkState (clock s) (trace s) (notifying s) (root_done s) b
          (deadline s) (shutdown_cancelled s) (available s) (responses s).
Definition set_deadline (d : option Z) (s : state) : state :=
  mkState (clock s) (trace s) (notifying s) (root_done s) (ongoing_done s)
          d (shutdown_cancelled s) (available s) (responses s).
Definition set_shutdown_cancelled (b : bool) (s : state) : state :=
  mkState (clock s) (trace s) (notifying s) (root_done s) (ongoing_done s)
          (deadline s) b (available s) (responses s).
Definition set_available (b : bool) (s : state) : state :=
  mkState (clock s) (trace s) (notifying s) (root_done s) (ongoing_done s)
          (deadline s) (shutdown_cancelled s) b (responses s).
Definition set_responses (r : list response) (s : state) : state :=
  mkState (clock s) (trace s) (notifying s) (root_done s) (ongoing_done s)
          (deadline s) (shutdown_cancelled s) (available s) r.

(** A timed call returns [d] later; as [time.Sleep], it returns at once when
    [d] is not positive. *)
Definition pass (d : Duration) (s : state) : state :=
  set_clock (clock s + Z.max 0 d) s.

(** Whether the deadline of shutdownCtx has passed. *)
Definition expired (s : state) : bool :=
  match deadline s with
  | Some dl => dl <=? clock s
  | None => false
  end.

(** The time shutdownCtx has left, [0] once its deadline has passed. *)
Definition remaining (s : state) : Duration :=
  match deadline s with
  | Some dl => Z.max 0 (dl - clock s)
  | None => 0
  end.

(** [c.Err()] *)
Definition ctx_Err (s : state) (c : ctx) : option error :=
  match c with
  | Background => None
  | rootCtx => if root_done s then Some Canceled else None
  | ongoingCtx => if ongoing_done s then Some Canceled else None
  | shutdownCtx =>
      if shutdown_cancelled s then Some Canceled
      else if expired s then Some DeadlineExceeded
      else None
  end.

(** [http.Error] sets the status code and prints the message with
    [fmt.Fprintln], which ends the line. *)
Definition newline : string := String (ascii_of_nat 10) EmptyString.
Definition http_Error_response (msg : string) (code : Z) : response :=
  mkResponse code (msg ++ newline)%string.

(** The effect of a call and its answer.  [stop] is the function
    [signal.NotifyContext] returns: it cancels rootCtx and undoes the
    registration of the signals.  [rootCtx.Done()] yields once rootCtx is
    cancelled.  [cancel] after the deadline leaves the context's error as it
    is. *)
Definition effect (w : world) (c : call) (s : state) : answer c * state :=
  match c as c0 return answer c0 * state with
  | signal_NotifyContext => (tt, set_notifying true s)
  | stop => (tt, set_root_done true (set_notifying false s))
  | stopOngoingGracefully => (tt, set_ongoing_done true s)
  | context_WithTimeout d => (tt, set_deadline (Some (clock s + d)) s)
  | cancel => (tt, if expired s then s else set_shutdown_cancelled true s)
  | resource_New _ _ _ => (resource_err w, s)
  | exporter_New _ => (exporter_err w, s)
  | tp_Shutdown _ => (flush_err w, pass (flush_elapsed w) s)
  | Server_Shutdown _ => (Shutdown_err w, pass (Shutdown_elapsed w) s)
  | atomic_Store b => (tt, set_available b s)
  | atomic_Load => (available s, s)
  | os_Getenv key =>
      (if String.eqb key "HOST" then HOST w
       else if String.eqb key "PORT" then PORT w
       else "", s)
  | rootCtx_Done => (tt, set_root_done true (pass (uptime w) s))
  | time_Sleep d => (tt, pass d s)
  | http_Error msg code =>
      (tt, set_responses (responses s ++ [http_Error_response msg code]) s)
  | slog_SetDefault | slog_Log _ _ | context_WithCancel | otel_SetErrorHandler
  | sdktrace_NewTracerProvider _ | otel_SetTracerProvider
  | otel_GetTracerProvider | tp_Tracer _ | http_NewServeMux | mux_Handle _
  | go_produceTraces _ | go_ListenAndServe _ _ | tracer_Start _ _
  | span_AddEvent _ | span_End => (tt, s)
  end.

(** A call is made at the current time and enters the trace when it returns. *)
Definition handle (w : world) (c : call) (s : state) : answer c * state :=
  let r := effect w c s in
  (fst r,
   set_trace (trace s ++ [mkEvent (clock s) (clock (snd r)) c (to_value c (fst r))])
             (snd r)).

(** ** Running a program to completion *)

Inductive outcome (A : Type) : Type :=
| Returned (a : A)
| Panicked (e : error).
Arguments Returned {A} a.
Arguments Panicked {A} e.

(** [run] executes a program in which the shutdown signal arrives while
    [<-rootCtx.Done()] waits. *)
Fixpoint run {A : Type} (w : world) (p : prog A) (s : state) : outcome A * state :=
  match p with
  | Ret a => (Returned a, s)
  | Panic e => (Panicked e, s)
  | Call c k => run w (k (fst (handle w c s))) (snd (handle w c s))
  end.

(** ** Running a program under signals *)

Inductive exit :=
| Exit0                  (* main returned *)
| Exit2 (e : error)      (* the process panicked *)
| Killed.                (* SIGINT/SIGTERM with its default behaviour *)

Inductive proc : Type :=
| Running (p : prog unit) (s : state)
| Exited (x : exit) (s : state).

Inductive action :=
| Step                   (* the main goroutine makes its next call *)
| Signal.                (* SIGINT or SIGTERM arrives *)

(** All calls but the receive from [rootCtx.Done()] can always proceed. *)
Definition enabled (c : call) (s : state) : bool :=
  match c with
  | rootCtx_Done => root_done s
  | _ => true
  end.

Definition step (w : world) (pr : proc) : proc :=
  match pr with
  | Running (Ret _) s => Exited Exit0 s
  | Running (Panic e) s => Exited (Exit2 e) s
  | Running (Call c k) s =>
      if enabled c s
      then Running (k (fst (handle w c s))) (snd (handle w c s))
      else pr
  | Exited _ _ => pr
  end.

(** os/signal: [Notify] disables the default behaviour of the signals it is
    given and relays them; once [Stop] has undone the registration the default
    behaviour is back, and that of SIGINT and SIGTERM is to exit the program. *)
Definition deliver (pr : proc) : proc :=
  match pr with
  | Running p s =>
      if notifying s then Running p (set_root_done true s) else Exited Killed s
  | Exited _ _ => pr
  end.

Definition act (w : world) (a : action) (pr : proc) : proc :=
  match a with
  | Step => step w pr
  | Signal => deliver pr
  end.

Definition exec (w : world) (sched : list action) (pr : proc) : proc :=
  fold_left (fun pr a => act w a pr) sched pr.

Definition state_of (pr : proc) : state :=
  match pr with
  | Running _ s => s
  | Exited _ s => s
  end.

(** ** Library functions the sources use *)

(** [fmt.Sprintf("%s@%s", a, b)] *)
Definition Sprintf_s_at_s (a b : string) : string := (a ++ "@" ++ b)%string.

Fixpoint IndexByte_found (s : string) (b : ascii) : bool :=
  match s with
  | EmptyString => false
  | String a rest => if Ascii.eqb a b then true else IndexByte_found rest b
  end.

(** [net.JoinHostPort]: a host with a colon is taken for an IPv6 literal. *)
Definition JoinHostPort (host port : string) : string :=
  if IndexByte_found host ":"%char
  then ("[" ++ host ++ "]:" ++ port)%string
  else (host ++ ":" ++ port)%string.

(** [errors.Is(err, http.ErrServerClosed)] *)
Definition errors_Is_ErrServerClosed (err : error) : bool :=
  match err with
  | ErrServerClosed => true
  | _ => false
  end.

Definition StatusOK : Z := 200.
Definition StatusServiceUnavailable : Z := 503.

Record Request := mkRequest { UserAgent : string }.

(** [http.Server] as [NewServer] fills it. *)
Record Server := mkServer { Addr : string; BaseContext : ctx }.

(** ** src/unnamed/part_000: the server with tracing *)

Module Part000.

Definition _shutdownPeriod : Duration := 15 * Second.
Definition _shutdownHardPeriod : Duration := 3 * Second.
Definition _readinessDrainDelay : Duration := 5 * Second.

Section Build.

(** [var ( Version string; Commit string )], set when the binary is linked. *)
Variables Version Commit : string.

Definition newTracer (c : ctx) : prog (ctx -> prog (option error)) :=
  let version := Sprintf_s_at_s Commit Version in
  err <- do (resource_New "server" version "dev") ;;
  match err with
  | Some e => Panic e
  | None =>
      do otel_SetErrorHandler ;;
      err <- do (exporter_New otlptracehttp) ;;
      match err with
      | Some e => Panic e
      | None =>
          do (sdktrace_NewTracerProvider AlwaysSample) ;;
          do otel_SetTracerProvider ;;
          do (slog_Log Info "otel tracer is configured") ;;
          Ret (fun c' => do (tp_Shutdown c'))
      end
  end.

Record ReadinessHandler := mkReadinessHandler { tracer : string }.

Definition NewReadinessHandler (tracer : string) : prog ReadinessHandler :=
  do (atomic_Store true) ;;
  Ret (mkReadinessHandler tracer).

Definition MakeUnavailable (r : ReadinessHandler) : prog unit :=
  do (atomic_Store false).

Definition ServeHTTP (r : ReadinessHandler) (req : Request) : prog unit :=
  let ua := UserAgent req in
  do (tracer_Start "healthcheck" ua) ;;
  defer (do span_End)
    (a <- do atomic_Load ;;
     match a with
     | true =>
         do (span_AddEvent "healthy") ;;
         do (http_Error "OK" StatusOK)
     | false =>
         do (span_AddEvent "unhealthy") ;;
         do (http_Error "Shutting down" StatusServiceUnavailable)
     end).

(** The [logError] closure of the cleanup function. *)
Definition logError (msg : string) (err : option error) : prog unit :=
  let status := match err with
                | Some _ => " failed"
                | None => " succeeded"
                end in
  do (slog_Log Error (msg ++ status)%string).

Definition NewRoutes (c : ctx)
  : prog (ReadinessHandler * prog unit * (ctx -> prog unit)) :=
  cleanupTracer <- newTracer c ;;
  do otel_GetTracerProvider ;;
  do http_NewServeMux ;;
  do (tp_Tracer "http.handler.readiness") ;;
  rh <- NewReadinessHandler "http.handler.readiness" ;;
  do (mux_Handle "GET /health") ;;
  do (tp_Tracer "dummy-trace-generator") ;;
  do (go_produceTraces c) ;;
  Ret (rh, MakeUnavailable rh,
       fun c' =>
         err <- cleanupTracer c' ;;
         logError "cleanup tracer" err).

Definition NewServer (embedCtx : ctx) (host port : string) : Server :=
  mkServer (JoinHostPort host port) embedCtx.

(** [go_ListenAndServe] is the [go] statement: it starts the goroutine
    [serve] below and returns at once.  Requests are served by [ServeHTTP]
    on the state [main] shares with the goroutine. *)
Definition main : prog unit :=
  do slog_SetDefault ;;
  do (slog_Log Info "Running server") ;;
  do signal_NotifyContext ;;
  defer (do stop)
    (do context_WithCancel ;;
     r <- NewRoutes ongoingCtx ;;
     let '(h, unaliveServer, cleanup) := r in
     host <- do (os_Getenv "HOST") ;;
     port <- do (os_Getenv "PORT") ;;
     let s := NewServer ongoingCtx host port in
     do (go_ListenAndServe (Addr s) (BaseContext s)) ;;
     do rootCtx_Done ;;
     do stop ;;
     unaliveServer ;;
     do (slog_Log Info "Received signal. Shutting down.") ;;
     do (time_Sleep _readinessDrainDelay) ;;
     do (slog_Log Info "Readiness check propagated, now waiting for ongoing requests to finish.") ;;
     do (context_WithTimeout _shutdownPeriod) ;;
     defer (do cancel)
       (err <- do (Server_Shutdown shutdownCtx) ;;
        do stopOngoingGracefully ;;
        match err with
        | Some _ =>
            do (slog_Log Error "Failed to wait for ongoing requests to finish, waiting for forced cancellation.") ;;
            do (time_Sleep _shutdownHardPeriod)
        | None => Ret tt
        end ;;
        do (slog_Log Info "Server shut down gracefully") ;;
        do (slog_Log Info "Cleaning up dependencies...") ;;
        cleanup shutdownCtx)).

End Build.

(** The function literal [main] starts with [go].  [listen] is the error
    [s.ListenAndServe()] returns ([None] for [nil]), when it returns: the
    goroutine panics, and the process with it, on any error but
    [http.ErrServerClosed]. *)
Definition serve (listen : option error) : prog unit :=
  do (slog_Log Info "Starting server") ;;
  match listen with
  | Some err => if errors_Is_ErrServerClosed err then Ret tt else Panic err
  | None => Ret tt
  end.

End Part000.

(** ** src/unnamed/part_001: the server without tracing *)

Module Part001.

Definition _shutdownPeriod : Duration := 15 * Second.
Definition _shutdownHardPeriod : Duration := 3 * Second.
Definition _readinessDrainDelay : Duration := 5 * Second.

Definition NewReadinessHandler : prog unit :=
  do (atomic_Store true).

Definition MakeUnavailable : prog unit :=
  do (atomic_Store false).

Definition ServeHTTP (req : Request) : prog unit :=
  a <- do atomic_Load ;;
  match a with
  | true => do (http_Error "OK" StatusOK)
  | false => do (http_Error "Shutting down" StatusServiceUnavailable)
  end.

Definition NewRoutes : prog (prog unit) :=
  do http_NewServeMux ;;
  NewReadinessHandler ;;
  do (mux_Handle "GET /health") ;;
  Ret MakeUnavailable.

Definition NewServer (embedCtx : ctx) (host port : string) : Server :=
  mkServer (JoinHostPort host port) embedCtx.

(** [go_ListenAndServe] is the [go] statement: it starts the goroutine
    [serve] below and returns at once. *)
Definition main : prog unit :=
  do slog_SetDefault ;;
  do (slog_Log Info "Running server") ;;
  do signal_NotifyContext ;;
  defer (do stop)
    (do context_WithCancel ;;
     unaliveServer <- NewRoutes ;;
     host <- do (os_Getenv "HOST") ;;
     port <- do (os_Getenv "PORT") ;;
     let s := NewServer ongoingCtx host port in
     do (go_ListenAndServe (Addr s) (BaseContext s)) ;;
     do rootCtx_Done ;;
     do stop ;;
     unaliveServer ;;
     do (slog_Log Info "Received signal. Shutting down.") ;;
     do (time_Sleep _readinessDrainDelay) ;;
     do (slog_Log Info "Readiness check propagated, now waiting for ongoing requests to finish.") ;;
     do (context_WithTimeout _shutdownPeriod) ;;
     defer (do cancel)
       (err <- do (Server_Shutdown shutdownCtx) ;;
        do stopOngoingGracefully ;;
        match err with
        | Some _ =>
            do (slog_Log Error "Failed to wait for ongoing requests to finish, waiting for forced cancellation.") ;;
            do (time_Sleep _shutdownHardPeriod)
        | None => Ret tt
        end ;;
        do (slog_Log Info "Server shut down gracefully"))).

(** The function literal [main] starts with [go], as in the other
    revision. *)
Definition serve (listen : option error) : prog unit :=
  do (slog_Log Info "Starting server") ;;
  match listen with
  | Some err => if errors_Is_ErrServerClosed err then Ret tt else Panic err
  | None => Ret tt
  end.

End Part001.

(** ** src/cmd/server/tracer.go *)

Module CmdServer.

Section Build.

Variables Version Commit : string.

(** The error of [otlptracegrpc.New] is assigned and not looked at. *)
Definition newTracer (c : ctx) : prog (ctx -> prog (option error)) :=
  let version := Sprintf_s_at_s Commit Version in
  err <- do (resource_New "server" version "dev") ;;
  match err with
  | Some e => Panic e
  | None =>
      err <- do (exporter_New otlptracegrpc) ;;
      do (sdktrace_NewTracerProvider NeverSample) ;;
      do otel_SetTracerProvider ;;
      do (slog_Log Info "otel tracer is configured") ;;
      Ret (fun c' => do (tp_Shutdown c'))
  end.

End Build.

End CmdServer.

(** ** Reading traces *)

Definition calls (s : state) : list call := map what (trace s).

Definition call_eq_dec (a b : call) : {a = b} + {a <> b}.
Proof.
  decide equality;
    try apply string_dec; try apply Z.eq_dec; try apply bool_dec;
    decide equality.
Defined.

Definition count (c : call) (tr : list event) : nat :=
  count_occ call_eq_dec (map what tr) c.

Definition is_cleanup (c : call) : bool :=
  match c with
  | tp_Shutdown _ => true
  | _ => false
  end.

Definition is_sleep (c : call) : bool :=
  match c with
  | time_Sleep _ => true
  | _ => false
  end.

Definition count_if (f : call -> bool) (tr : list event) : nat :=
  List.length (filter (fun e => f (what e)) tr).

(** Call [a] is in the trace before call [b], and had returned when [b] was
    made. *)
Definition precedes (a b : call) (tr : list event) : Prop :=
  exists (i j : nat) (ea eb : event),
    nth_error tr i = Some ea /\ nth_error tr j = Some eb /\ (i < j)%nat /\
    what ea = a /\ what eb = b /\ t_ret ea <= t_call eb.

(** The first event of call [c], if any. *)
Definition first_event (c : call) (tr : list event) : option event :=
  find (fun e => if call_eq_dec (what e) c then true else false) tr.

(** The service-version attribute the resource was built with. *)
Definition service_version (tr : list event) : option string :=
  match find (fun e => match what e with resource_New _ _ _ => true | _ => false end) tr with
  | Some (mkEvent _ _ (resource_New _ v _) _) => Some v
  | _ => None
  end.

(** What the reads of the readiness flag returned, oldest first. *)
Definition loads (tr : list event) : list bool :=
  flat_map (fun e => match what e, result e with
                     | atomic_Load, VBool b => [b]
                     | _, _ => []
                     end) tr.

Definition is_call (c : call) (e : event) : bool :=
  if call_eq_dec (what e) c then true else false.

(** [precedes], decided. *)
Fixpoint precedesb (a b : call) (tr : list event) : bool :=
  match tr with
  | [] => false
  | e :: rest =>
      (is_call a e && existsb (fun e' => is_call b e' && (t_ret e <=? t_call e')) rest)
      || precedesb a b rest
  end.

(** Call [a] occurs in [l] with call [b] somewhere after it. *)
Fixpoint in_order (a b : call) (l : list call) : bool :=
  match l with
  | [] => false
  | c :: rest =>
      ((if call_eq_dec c a then true else false)
       && existsb (fun c' => if call_eq_dec c' b then true else false) rest)
      || in_order a b rest
  end.

(** A trace in which every call returned before the next one was made, the
    last one by time [now]. *)
Definition chronological (tr : list event) (now : Z) : Prop :=
  (forall (i j : nat) (ea eb : event),
      nth_error tr i = Some ea -> nth_error tr j = Some eb -> (i < j)%nat ->
      t_ret ea <= t_call eb) /\
  (forall e, In e tr -> t_call e <= t_ret e <= now).

(** The serving context is cancelled only if [stopOngoingGracefully] was
    called. *)
Definition ongoing_inv (s : state) : Prop :=
  ongoing_done s = true -> In stopOngoingGracefully (calls s).

(** [l1] is an initial part of [l2]. *)
Definition prefix {A : Type} (l1 l2 : list A) : Prop :=
  exists rest, l2 = l1 ++ rest.

(** The time the shutdown signal was observed: the return of
    [<-rootCtx.Done()]. *)
Definition signal_received (tr : list event) : option Z :=
  option_map t_ret (first_event rootCtx_Done tr).

(** The time the tracer cleanup was invoked with context [c]. *)
Definition cleanup_invoked (c : ctx) (tr : list event) : option Z :=
  option_map t_call (first_event (tp_Shutdown c) tr).

(** ** Goroutines that share the readiness flag *)

(** The requests being served and the calls of [MakeUnavailable] run as
    goroutines; a schedule names the goroutine that makes the next call.
    [sync/atomic] makes every [Store] and [Load] one indivisible step. *)
Definition pool := list (prog unit).

Fixpoint set_nth {A : Type} (i : nat) (x : A) (l : list A) : list A :=
  match l, i with
  | [], _ => []
  | _ :: rest, O => x :: rest
  | y :: rest, S i' => y :: set_nth i' x rest
  end.

Definition pool_step (w : world) (ps : pool * state) (i : nat) : pool * state :=
  match nth_error (fst ps) i with
  | Some (Call c k) =>
      (set_nth i (k (fst (handle w c (snd ps)))) (fst ps),
       snd (handle w c (snd ps)))
  | _ => ps
  end.

Definition pool_exec (w : world) (sched : list nat) (ps : pool * state) : pool * state :=
  fold_left (pool_step w) sched ps.

(** What can be done to the readiness gate once it is built. *)
Inductive gate_op :=
| OpMakeUnavailable
| OpServeHTTP (req : Request).

Definition gate_thread000 (r : Part000.ReadinessHandler) (o : gate_op) : prog unit :=
  match o with
  | OpMakeUnavailable => Part000.MakeUnavailable r
  | OpServeHTTP req => Part000.ServeHTTP r req
  end.

Definition gate_thread001 (o : gate_op) : prog unit :=
  match o with
  | OpMakeUnavailable => Part001.MakeUnavailable
  | OpServeHTTP req => Part001.ServeHTTP req
  end.

(** A program that never stores [true] into the flag. *)
Fixpoint no_store_true {A : Type} (p : prog A) : Prop :=
  match p with
  | Ret _ | Panic _ => True
  | Call c k => c <> atomic_Store true /\ forall x, no_store_true (k x)
  end.

(** The flag as a register: a trace replays from flag value [flag] when every
    load in it returns what was stored last. *)
Fixpoint replay (flag : bool) (tr : list event) : option bool :=
  match tr with
  | [] => Some flag
  | e :: rest =>
      match what e with
      | atomic_Store b => replay b rest
      | atomic_Load =>
          match result e with
          | VBool b => if Bool.eqb b flag then replay flag rest else None
          | _ => None
          end
      | _ => replay flag rest
      end
  end.

(** [n] calls of [p] in a row. *)
Fixpoint times {A : Type} (n : nat) (p : prog A) : prog unit :=
  match n with
  | O => Ret tt
  | S n' => p ;; times n' p
  end.

(** ** Worlds used as examples *)

Definition world_fast : world :=
  mkWorld "" "8080" None None (60 * Second) (1 * Second) None (1 * Second) None.

Definition world_timeout : world :=
  mkWorld "" "8080" None None (60 * Second) (15 * Second) (Some DeadlineExceeded)
          0 (Some DeadlineExceeded).

Definition world_no_exporter : world :=
  mkWorld "" "8080" None (Some (ErrOther "exporter")) (60 * Second) (1 * Second) None
          (1 * Second) None.

(** The contract of [http.Server.Shutdown] when called with a context that
    has [period] left: it returns within the period, and returns the context's
    error only when the period is used up. *)
Definition Shutdown_contract (w : world) (period : Duration) : Prop :=
  0 <= Shutdown_elapsed w <= period /\
  (Shutdown_err w = Some DeadlineExceeded -> Shutdown_elapsed w = period).

(** The state in which a program makes its first call satisfying [f]. *)
Fixpoint state_at_call {A : Type} (w : world) (f : call -> bool) (p : prog A)
                       (s : state) : option state :=
  match p with
  | Ret _ | Panic _ => None
  | Call c k =>
      if f c then Some s
      else state_at_call w f (k (fst (handle w c s))) (snd (handle w c s))
  end.

Definition is_hard_sleep (c : call) : bool :=
  match c with
  | time_Sleep d => d =? Part000._shutdownHardPeriod
  | _ => false
  end.

Definition is_graceful_shutdown (c : call) : bool :=
  match c with
  | Server_Shutdown _ => true
  | _ => false
  end.

(** The transport was started with base context [x]. *)
Definition serves_on (x : ctx) (c : call) : bool :=
  match c, x with
  | go_ListenAndServe _ Background, Background
  | go_ListenAndServe _ rootCtx, rootCtx
  | go_ListenAndServe _ ongoingCtx, ongoingCtx
  | go_ListenAndServe _ shutdownCtx, shutdownCtx => true
  | _, _ => false
  end.

(** Whether the signals are relayed after the calls [l]: the last of
    [signal.NotifyContext] and [stop] decides. *)
Definition notif_of (l : list call) : bool :=
  fold_left (fun b c => match c with
                        | signal_NotifyContext => true
                        | stop => false
                        | _ => b
                        end) l false.

Definition is_notify (c : call) : bool :=
  match c with
  | signal_NotifyContext => true
  | _ => false
  end.

Definition is_stop (c : call) : bool :=
  match c with
  | stop => true
  | _ => false
  end.

(** No [signal.NotifyContext] after the first [stop]. *)
Fixpoint no_renotify (l : list call) : bool :=
  match l with
  | [] => true
  | c :: rest =>
      if is_stop c then forallb (fun c' => negb (is_notify c')) rest
      else no_renotify rest
  end.

Definition status_of (pr : proc) : option exit :=
  match pr with
  | Running _ _ => None
  | Exited x _ => Some x
  end.

(** [main] starts and blocks; a signal arrives; [main] runs on. *)
Definition sched_one_signal : list action :=
  repeat Step 21 ++ [Signal] ++ repeat Step 45.

(** The same, with a second signal after the drain delay. *)
Definition sched_two_signals : list action :=
  repeat Step 21 ++ [Signal] ++ repeat Step 5 ++ [Signal] ++ repeat Step 40.

(** The same, with the second signal before [main] has run on. *)
Definition sched_two_signals_at_once : list action :=
  repeat Step 21 ++ [Signal; Signal] ++ repeat Step 45.

(** The reads of the flag in a trace are monotonic: a load after a
    [Store(false)] returned [false], and a load with no [Store(false)] before
    it returned [true]. *)
Definition flag_monotonic (tr : list event) : Prop :=
  (forall i j ei ej,
      nth_error tr i = Some ei -> nth_error tr j = Some ej -> (i < j)%nat ->
      what ei = atomic_Store false -> what ej = atomic_Load ->
      result ej = VBool false) /\
  (forall j ej,
      nth_error tr j = Some ej -> what ej = atomic_Load ->
      (forall i ei, (i < j)%nat -> nth_error tr i = Some ei ->
                    what ei <> atomic_Store false) ->
      result ej = VBool true).

(** ** src/unnamed/part_000: the dummy trace generator *)

Module Generator.

Definition Millisecond : Duration := 1000000.

Inductive attr :=
| HTTPRequestMethodGet
| HTTPResponseStatusCode (code : Z)
| DBSystemNamePostgreSQL
| DBOperationName (op : string).

(** A context as far as tracing goes: the span it carries, if any. *)
Definition span_ctx := option nat.

(** What the generator does, in order. *)
Inductive gevent :=
| EvNewTicker (d : Duration)
| EvTickerStop
| EvStart (id : nat) (parent : span_ctx) (name : string) (attrs : list attr)
| EvAddEvent (id : nat) (msg : string)
| EvEnd (id : nat)
| EvSleep (d : Duration)
| EvInfo (msg : string).

Record gstate := mkG {
  next_span : nat;                 (* the identity of the next span *)
  slept : Duration;                (* time spent in time.Sleep *)
  emitted : list gevent            (* oldest first *)
}.

Definition emit (e : gevent) (st : gstate) : gstate :=
  mkG (next_span st) (slept st) (emitted st ++ [e]).

(** [tracer.Start(ctx, name, attrs)]: a new span, child of the span [ctx]
    carries, and the context that carries the new span. *)
Definition Start (ctx : span_ctx) (name : string) (attrs : list attr) (st : gstate)
  : span_ctx * nat * gstate :=
  let id := next_span st in
  (Some id, id,
   mkG (S id) (slept st) (emitted st ++ [EvStart id ctx name attrs])).

Definition AddEvent (span : nat) (msg : string) (st : gstate) : gstate :=
  emit (EvAddEvent span msg) st.

Definition SpanEnd (span : nat) (st : gstate) : gstate :=
  emit (EvEnd span) st.

Definition Sleep (d : Duration) (st : gstate) : gstate :=
  mkG (next_span st) (slept st + Z.max 0 d) (emitted st ++ [EvSleep d]).

Definition Info (msg : string) (st : gstate) : gstate :=
  emit (EvInfo msg) st.

(** The three function literals of the loop body, by the span they make;
    the deferred [childSpan.End()] runs last. *)
Definition fetch_data (ctx : span_ctx) (st : gstate) : gstate :=
  let '(_, childSpan, st) :=
    Start ctx "dummy.fetch_data" [HTTPRequestMethodGet; HTTPResponseStatusCode 200] st in
  let st := AddEvent childSpan "fetching data from database" st in
  let st := Sleep (100 * Millisecond) st in
  SpanEnd childSpan st.

Definition process_data (ctx : span_ctx) (st : gstate) : gstate :=
  let '(_, childSpan, st) := Start ctx "dummy.process_data" [] st in
  let st := AddEvent childSpan "processing data" st in
  let st := Sleep (50 * Millisecond) st in
  SpanEnd childSpan st.

Definition save_result (ctx : span_ctx) (st : gstate) : gstate :=
  let '(_, childSpan, st) :=
    Start ctx "dummy.save_result" [DBSystemNamePostgreSQL; DBOperationName "insert"] st in
  let st := AddEvent childSpan "saving result to database" st in
  let st := Sleep (75 * Millisecond) st in
  SpanEnd childSpan st.

(** The body of [case <-ticker.C].  Its [ctx, span := tracer.Start(ctx, ..)]
    declares a new [ctx] for the body only: the functions below get the
    context with the root span, the loop keeps the one it had. *)
Definition on_tick (ctx : span_ctx) (st : gstate) : gstate :=
  let '(ctx', span, st) := Start ctx "dummy.operation" [] st in
  let st := fetch_data ctx' st in
  let st := process_data ctx' st in
  let st := save_result ctx' st in
  let st := AddEvent span "operation completed successfully" st in
  let st := SpanEnd span st in
  Info "Generated dummy trace" st.

(** What [select] picks each time round the loop. *)
Inductive selected :=
| CtxDone                          (* case <-ctx.Done() *)
| Tick.                            (* case <-ticker.C *)

(** The [for] loop: [true] when it returned, [false] when it waits in
    [select] with nothing more selected. *)
Fixpoint loop (ctx : span_ctx) (sel : list selected) (st : gstate) : bool * gstate :=
  match sel with
  | [] => (false, st)
  | CtxDone :: _ => (true, st)
  | Tick :: rest => loop ctx rest (on_tick ctx st)
  end.

Definition produceTraces (ctx : span_ctx) (sel : list selected) (st : gstate)
  : bool * gstate :=
  let st := emit (EvNewTicker (3 * Second)) st in
  let r := loop ctx sel st in
  if fst r then (true, emit EvTickerStop (snd r)) else r.

Definition start : gstate := mkG 0 0 [].

(** The ticks the loop gets to process: those selected before the first
    [ctx.Done()]. *)
Fixpoint processed (sel : list selected) : nat :=
  match sel with
  | Tick :: rest => S (processed rest)
  | _ => O
  end.

Definition is_done (x : selected) : bool :=
  match x with
  | CtxDone => true
  | Tick => false
  end.

Definition is_start (e : gevent) : bool :=
  match e with EvStart _ _ _ _ => true | _ => false end.
Definition is_end (e : gevent) : bool :=
  match e with EvEnd _ => true | _ => false end.
Definition is_info (e : gevent) : bool :=
  match e with EvInfo _ => true | _ => false end.
Definition is_ticker_stop (e : gevent) : bool :=
  match e with EvTickerStop => true | _ => false end.
Definition is_new_ticker (e : gevent) : bool :=
  match e with EvNewTicker _ => true | _ => false end.

Definition number (f : gevent -> bool) (l : list gevent) : nat :=
  List.length (filter f l).

(** Spans as a stack: a start opens a span, an event goes to the span opened
    last, an end closes the span opened last.  [Some stack] gives the spans
    left open, innermost first; [None] when an event or an end names another
    span. *)
Fixpoint nesting (stack : list nat) (l : list gevent) : option (list nat) :=
  match l with
  | [] => Some stack
  | EvStart id _ _ _ :: rest => nesting (id :: stack) rest
  | EvAddEvent id _ :: rest =>
      match stack with
      | top :: _ => if Nat.eqb id top then nesting stack rest else None
      | [] => None
      end
  | EvEnd id :: rest =>
      match stack with
      | top :: below => if Nat.eqb id top then nesting below rest else None
      | [] => None
      end
  | _ :: rest => nesting stack rest
  end.

(** The events of one tick that starts with span [n] under context [ctx]. *)
Definition tick_events (ctx : span_ctx) (n : nat) : list gevent :=
  [EvStart n ctx "dummy.operation" [];
   EvStart (S n) (Some n) "dummy.fetch_data"
           [HTTPRequestMethodGet; HTTPResponseStatusCode 200];
   EvAddEvent (S n) "fetching data from database";
   EvSleep (100 * Millisecond);
   EvEnd (S n);
   EvStart (S (S n)) (Some n) "dummy.process_data" [];
   EvAddEvent (S (S n)) "processing data";
   EvSleep (50 * Millisecond);
   EvEnd (S (S n));
   EvStart (S (S (S n))) (Some n) "dummy.save_result"
           [DBSystemNamePostgreSQL; DBOperationName "insert"];
   EvAddEvent (S (S (S n))) "saving result to database";
   EvSleep (75 * Millisecond);
   EvEnd (S (S (S n)));
   EvAddEvent n "operation completed successfully";
   EvEnd n;
   EvInfo "Generated dummy trace"].

End Generator.

(** ** The process over its lifetime *)

Definition is_listen (c : call) : bool :=
  match c with
  | go_ListenAndServe _ _ => true
  | _ => false
  end.

Definition is_wait (c : call) : bool :=
  match c with
  | rootCtx_Done => true
  | _ => false
  end.

Definition is_drain_sleep (c : call) : bool :=
  match c with
  | time_Sleep d => d =? Part000._readinessDrainDelay
  | _ => false
  end.

Definition is_unalive (c : call) : bool :=
  match c with
  | atomic_Store false => true
  | _ => false
  end.

Definition is_cancel (c : call) : bool :=
  match c with
  | cancel => true
  | _ => false
  end.

(** The value of the readiness flag after the calls [l]: the last store
    decides; the zero value of [atomic.Bool] is [false]. *)
Definition flag_of (l : list call) : bool :=
  fold_left (fun b c => match c with
                        | atomic_Store v => v
                        | _ => b
                        end) l false.

(** No [Store(true)] after the first [Store(false)]. *)
Fixpoint no_restore (l : list call) : bool :=
  match l with
  | [] => true
  | c :: rest =>
      if is_unalive c
      then forallb (fun c' => if call_eq_dec c' (atomic_Store true) then false else true) rest
      else no_restore rest
  end.

(** The listener is not started before the flag was stored [true]. *)
Fixpoint listen_after_store (l : list call) : bool :=
  match l with
  | [] => true
  | c :: rest =>
      if is_listen c then false
      else if call_eq_dec c (atomic_Store true) then true
      else listen_after_store rest
  end.

(** The address and base context the transport was started with. *)
Definition listen_on (tr : list event) : option (string * ctx) :=
  match find (fun e => is_listen (what e)) tr with
  | Some (mkEvent _ _ (go_ListenAndServe addr base) _) => Some (addr, base)
  | _ => None
  end.

(** When the first call satisfying [f] was made, and when it returned. *)
Definition time_called (f : call -> bool) (tr : list event) : option Z :=
  option_map t_call (find (fun e => f (what e)) tr).

Definition time_returned (f : call -> bool) (tr : list event) : option Z :=
  option_map t_ret (find (fun e => f (what e)) tr).

(** The last [n] calls of a run. *)
Definition last_calls (n : nat) (s : state) : list call :=
  rev (firstn n (rev (calls s))).

(** What a health probe served in state [s] is answered, by either revision
    of the handler. *)
Definition probe000 (w : world) (req : Request) (s : state) : list response :=
  skipn (List.length (responses s))
        (responses (snd (run w (Part000.ServeHTTP
                                  (Part000.mkReadinessHandler "http.handler.readiness")
                                  req) s))).

Definition probe001 (w : world) (req : Request) (s : state) : list response :=
  skipn (List.length (responses s))
        (responses (snd (run w (Part001.ServeHTTP req) s))).

(** The calls a program makes when run from state [s]. *)
Definition calls_from {A : Type} (w : world) (p : prog A) (s : state) : list call :=
  skipn (List.length (trace s)) (calls (snd (run w p s))).

(** [main] has started, and blocks waiting for the signal. *)
Definition sched_serving : list action := repeat Step 21.

(** [main] waits in [<-rootCtx.Done()] and rootCtx is not cancelled. *)
Definition blocked (pr : proc) : bool :=
  match pr with
  | Running (Call rootCtx_Done _) s => negb (root_done s)
  | _ => false
  end.

(** [k] calls of [main], a signal, and [main] runs on. *)
Definition sched_signal_after (k : nat) : list action :=
  repeat Step k ++ Signal :: repeat Step 60.

(** The calls the revision with tracing makes for the tracer alone. *)
Definition tracing_call (c : call) : bool :=
  match c with
  | resource_New _ _ _ | otel_SetErrorHandler | exporter_New _
  | sdktrace_NewTracerProvider _ | otel_SetTracerProvider | otel_GetTracerProvider
  | tp_Tracer _ | tp_Shutdown _ | go_produceTraces _ => true
  | slog_Log _ msg =>
      String.eqb msg "otel tracer is configured"
      || String.eqb msg "Cleaning up dependencies..."
      || String.eqb msg "cleanup tracer succeeded"
      || String.eqb msg "cleanup tracer failed"
  | _ => false
  end.

(** ** The process with its serving goroutine *)

(** The main goroutine and, once [main] has made its [go] statement and until
    it ends, the serving goroutine. *)
Record process := mkProcess { main_of : proc; serving : option (prog unit) }.

Inductive paction :=
| MainStep                 (* the main goroutine makes its next call *)
| ServeStep                (* the serving goroutine makes its next step *)
| SignalArrives.           (* SIGINT or SIGTERM arrives *)

(** The next call of [main] is its [go] statement. *)
Definition spawning (pr : proc) : bool :=
  match pr with
  | Running (Call c _) _ => is_listen c
  | _ => false
  end.

(** A step of the serving goroutine, on the state it shares with [main].  A
    panic in it ends the process, as any panic that is not recovered; the
    deferred calls of [main] do not run. *)
Definition serve_step (w : world) (P : process) : process :=
  match main_of P, serving P with
  | Running p s, Some (Call c k) =>
      if enabled c s
      then mkProcess (Running p (snd (handle w c s))) (Some (k (fst (handle w c s))))
      else P
  | Running p s, Some (Ret _) => mkProcess (Running p s) None
  | Running p s, Some (Panic e) => mkProcess (Exited (Exit2 e) s) None
  | _, _ => P
  end.

(** [g] is the body of the goroutine [main] starts. *)
Definition pact (w : world) (g : prog unit) (P : process) (a : paction) : process :=
  match a with
  | MainStep =>
      mkProcess (step w (main_of P))
                (if spawning (main_of P) then Some g else serving P)
  | ServeStep => serve_step w P
  | SignalArrives => mkProcess (deliver (main_of P)) (serving P)
  end.

Definition pexec (w : world) (g : prog unit) (sched : list paction) (P : process)
  : process :=
  fold_left (pact w g) sched P.

Definition boot (p : prog unit) : process := mkProcess (Running p init) None.

(** [main] starts up, then the serving goroutine runs to its end. *)
Definition sched_listener_returns : list paction :=
  repeat MainStep 20 ++ [ServeStep; ServeStep].

(** The calls that begin the shutdown. *)
Definition begins_shutdown (c : call) : bool :=
  is_unalive c || is_sleep c || is_graceful_shutdown c.

(** Calls that only log. *)
Definition silent (c : call) : bool :=
  match c with
  | slog_SetDefault | slog_Log _ _ => true
  | _ => false
  end.

(** A program that only logs, with no call that [f] counts. *)
Fixpoint quiet (f : call -> bool) (p : prog unit) : Prop :=
  match p with
  | Ret _ | Panic _ => True
  | Call c k => silent c = true /\ f c = false /\ forall x, quiet f (k x)
  end.

(** A program that can end in a panic with [e]. *)
Fixpoint panics (p : prog unit) (e : error) : Prop :=
  match p with
  | Ret _ => False
  | Panic e' => e' = e
  | Call c k => exists x, panics (k x) e
  end.

(** Two processes at the same point, in states that differ in their traces
    at most, with as many calls that [f] counts. *)
Definition sim (f : call -> bool) (a b : proc) : Prop :=
  match a, b with
  | Running p s, Running p' s' =>
      p = p' /\ set_trace [] s = set_trace [] s' /\
      count_if f (trace s) = count_if f (trace s')
  | Exited x s, Exited x' s' =>
      x = x' /\ set_trace [] s = set_trace [] s' /\
      count_if f (trace s) = count_if f (trace s')
  | _, _ => False
  end.

(** ** Tactics *)

Ltac open_world w :=
  destruct w as [host port res_err exp_err up sd_elapsed sd_err fl_elapsed fl_err];
  cbn [resource_err exporter_err Shutdown_err Shutdown_elapsed flush_err
       flush_elapsed uptime HOST PORT] in *;
  subst.

(** * Properties *)

(** ** The handler and the two interpreters *)

Section Interpreters.

Variable w : world.

Lemma handle_trace (c : call) (s : state) :
  trace (snd (handle w c s)) =
  trace s ++ [mkEvent (clock s) (clock (snd (effect w c s))) c (to_value c (fst (effect w c s)))].
Proof. reflexivity. Qed.

Lemma effect_trace (c : call) (s : state) :
  trace (snd (effect w c s)) = trace s.
Proof. destruct c; try reflexivity. simpl. destruct (expired s); reflexivity. Qed.

Lemma effect_clock (c : call) (s : state) :
  clock s <= clock (snd (effect w c s)).
Proof.
  destruct c; simpl; try lia.
  destruct (expired s); simpl; lia.
Qed.

Lemma prefix_refl {A : Type} (l : list A) : prefix l l.
Proof. exists []. now rewrite app_nil_r. Qed.

Lemma prefix_trans {A : Type} (l1 l2 l3 : list A) :
  prefix l1 l2 -> prefix l2 l3 -> prefix l1 l3.
Proof.
  intros [r1 ->] [r2 ->]. exists (r1 ++ r2). now rewrite app_assoc.
Qed.

Lemma run_extends {A : Type} (p : prog A) :
  forall s, prefix (trace s) (trace (snd (run w p s))).
Proof.
  induction p as [a | e | c k IH]; intro s; cbn [run snd].
  - apply prefix_refl.
  - apply prefix_refl.
  - eapply prefix_trans; [| apply IH].
    rewrite handle_trace. now eexists.
Qed.

(** A signal that finds the handler registered changes nothing but the
    cancellation of rootCtx, which [run] does not depend on. *)
Lemma handle_root_done (c : call) (s : state) :
  fst (handle w c (set_root_done true s)) = fst (handle w c s) /\
  snd (handle w c (set_root_done true s)) = set_root_done true (snd (handle w c s)).
Proof.
  destruct s; destruct c; split; try reflexivity.
  all: unfold handle, effect, expired; simpl;
    match goal with |- context [match ?d with Some _ => _ | None => _ end] =>
      destruct d as [dl|]; [destruct (dl <=? _)|] end; reflexivity.
Qed.

Lemma run_root_done {A : Type} (p : prog A) :
  forall s,
    fst (run w p (set_root_done true s)) = fst (run w p s) /\
    trace (snd (run w p (set_root_done true s))) = trace (snd (run w p s)).
Proof.
  induction p as [a | e | c k IH]; intro s; cbn [run]; try (split; reflexivity).
  destruct (handle_root_done c s) as [Ha Hs].
  rewrite Ha, Hs. apply IH.
Qed.

Lemma exec_exited (sched : list action) (x : exit) (s : state) :
  exec w sched (Exited x s) = Exited x s.
Proof. induction sched as [| [|] sched IH]; simpl; auto. Qed.

(** Whatever signals arrive and whenever, the calls a process has made are an
    initial part of the calls of the run with one signal; when the process
    ends by returning from [main] or by a panic it has made all of them. *)
Lemma exec_prefix (sched : list action) :
  forall (p : prog unit) (s : state),
    prefix (trace (state_of (exec w sched (Running p s)))) (trace (snd (run w p s))) /\
    (forall x s', exec w sched (Running p s) = Exited x s' -> x <> Killed ->
                  trace s' = trace (snd (run w p s))).
Proof.
  induction sched as [| a sched IH]; intros p s.
  - simpl. split; [apply run_extends | discriminate].
  - destruct a; cbn [exec fold_left act].
    + destruct p as [u | e | c k]; cbn [step].
      * change (fold_left _ sched ?pr) with (exec w sched pr).
        rewrite exec_exited. simpl. split; [apply prefix_refl |].
        intros x s' [= <- <-] _. reflexivity.
      * change (fold_left _ sched ?pr) with (exec w sched pr).
        rewrite exec_exited. simpl. split; [apply prefix_refl |].
        intros x s' [= <- <-] _. reflexivity.
      * destruct (enabled c s);
          [apply (IH (k (fst (handle w c s))) (snd (handle w c s)))
          | apply (IH (Call c k) s)].
    + cbn [deliver]. destruct (notifying s).
      * destruct (run_root_done p s) as [_ Ht]. rewrite <- Ht.
        apply (IH p (set_root_done true s)).
      * change (fold_left _ sched ?pr) with (exec w sched pr).
        rewrite exec_exited. simpl. split; [apply run_extends |].
        intros x s' [= <- <-] Hk. congruence.
Qed.

End Interpreters.

(** ** Reading traces: lemmas *)

Lemma is_call_true (c : call) (e : event) : is_call c e = true <-> what e = c.
Proof. unfold is_call. destruct (call_eq_dec (what e) c); split; congruence. Qed.

Lemma precedesb_sound (a b : call) (tr : list event) :
  precedesb a b tr = true -> precedes a b tr.
Proof.
  induction tr as [| e rest IH]; simpl; [discriminate |].
  intro H. apply orb_true_iff in H. destruct H as [H | H].
  - apply andb_true_iff in H. destruct H as [Ha Hex].
    apply existsb_exists in Hex. destruct Hex as [e' [Hin He']].
    apply andb_true_iff in He'. destruct He' as [Hb Ht].
    apply In_nth_error in Hin. destruct Hin as [n Hn].
    exists 0%nat, (S n), e, e'. repeat split; simpl; auto.
    + lia.
    + now apply is_call_true.
    + now apply is_call_true.
    + now apply Z.leb_le.
  - destruct (IH H) as (i & j & ea & eb & Hi & Hj & Hlt & Hwa & Hwb & Ht).
    exists (S i), (S j), ea, eb. repeat split; simpl; auto. lia.
Qed.

Lemma precedesb_complete (a b : call) (tr : list event) :
  precedes a b tr -> precedesb a b tr = true.
Proof.
  intros (i & j & ea & eb & Hi & Hj & Hlt & Hwa & Hwb & Ht).
  revert i j Hi Hj Hlt.
  induction tr as [| e rest IH]; intros i j Hi Hj Hlt.
  - destruct i; discriminate.
  - simpl. apply orb_true_iff.
    destruct i as [| i'].
    + left. simpl in Hi. injection Hi as ->.
      destruct j as [| j']; [lia |]. simpl in Hj.
      apply andb_true_iff. split; [now apply is_call_true |].
      apply existsb_exists. exists eb. split.
      * eapply nth_error_In; eauto.
      * apply andb_true_iff. split; [now apply is_call_true | now apply Z.leb_le].
    + right. destruct j as [| j']; [lia |].
      apply (IH i' j'); auto. lia.
Qed.

Lemma count_if_app (f : call -> bool) (l1 l2 : list event) :
  count_if f (l1 ++ l2) = (count_if f l1 + count_if f l2)%nat.
Proof. unfold count_if. now rewrite filter_app, length_app. Qed.

Lemma count_if_prefix (f : call -> bool) (l1 l2 : list event) :
  prefix l1 l2 -> (count_if f l1 <= count_if f l2)%nat.
Proof. intros [rest ->]. rewrite count_if_app. lia. Qed.

Lemma calls_handle (w : world) (c : call) (s : state) :
  calls (snd (handle w c s)) = calls s ++ [c].
Proof. unfold calls. rewrite handle_trace, map_app. reflexivity. Qed.

(** ** The serving context is cancelled by [stopOngoingGracefully] only *)

Lemma handle_ongoing (w : world) (c : call) (s : state) :
  ongoing_inv s -> ongoing_inv (snd (handle w c s)).
Proof.
  unfold ongoing_inv. intros Hinv Hdone. rewrite calls_handle.
  apply in_or_app.
  destruct (call_eq_dec c stopOngoingGracefully) as [-> | Hne].
  - right. now left.
  - left. apply Hinv. revert Hdone.
    destruct c; simpl; try congruence; auto.
    destruct (expired s); auto.
Qed.

Lemma exec_ongoing (w : world) (sched : list action) :
  forall pr, ongoing_inv (state_of pr) -> ongoing_inv (state_of (exec w sched pr)).
Proof.
  induction sched as [| a sched IH]; intros pr Hinv; [exact Hinv |].
  cbn [exec fold_left]. apply IH.
  destruct a; cbn [act].
  - destruct pr as [[u | e | c k] s | x s]; cbn [step state_of] in *; auto.
    destruct (enabled c s); cbn [state_of]; auto using handle_ongoing.
  - destruct pr as [p s | x s]; cbn [deliver state_of] in *; auto.
    destruct (notifying s); cbn [state_of]; auto.
Qed.

(** ** Calls are made one after the other *)

Lemma chronological_snoc (tr : list event) (now : Z) (e : event) :
  chronological tr now -> now <= t_call e -> t_call e <= t_ret e ->
  chronological (tr ++ [e]) (t_ret e).
Proof.
  intros [Hord Hin] Hnow He. split.
  - intros i j ea eb Hi Hj Hlt.
    assert (Hjlen : (j < List.length (tr ++ [e]))%nat)
      by (apply nth_error_Some; congruence).
    rewrite length_app in Hjlen. simpl in Hjlen.
    assert (Hi' : nth_error tr i = Some ea)
      by (rewrite nth_error_app1 in Hi by lia; exact Hi).
    destruct (Nat.eq_dec j (List.length tr)) as [-> | Hne].
    + rewrite nth_error_app2 in Hj by lia.
      rewrite Nat.sub_diag in Hj. simpl in Hj. injection Hj as <-.
      apply nth_error_In in Hi'. specialize (Hin ea Hi'). lia.
    + rewrite nth_error_app1 in Hj by lia. eauto.
  - intros e' Hin'. apply in_app_or in Hin'. destruct Hin' as [Hin' | [<- | []]].
    + specialize (Hin e' Hin'). lia.
    + lia.
Qed.

Lemma run_chronological (w : world) {A : Type} (p : prog A) :
  forall s, chronological (trace s) (clock s) ->
            chronological (trace (snd (run w p s))) (clock (snd (run w p s))).
Proof.
  induction p as [a | e | c k IH]; intros s Hs; cbn [run snd]; auto.
  apply IH. rewrite handle_trace.
  change (clock (snd (handle w c s))) with (clock (snd (effect w c s))).
  apply (chronological_snoc (trace s) (clock s)
           (mkEvent (clock s) (clock (snd (effect w c s))) c
                    (to_value c (fst (effect w c s))))); simpl; auto.
  - lia.
  - apply effect_clock.
Qed.

Lemma chronological_init : chronological (trace init) (clock init).
Proof.
  split.
  - intros i j ea eb Hi. destruct i; discriminate.
  - intros e [].
Qed.

Lemma in_order_positions (a b : call) (l : list call) :
  in_order a b l = true ->
  exists i j, nth_error l i = Some a /\ nth_error l j = Some b /\ (i < j)%nat.
Proof.
  induction l as [| c rest IH]; simpl; [discriminate |].
  intro H. apply orb_true_iff in H. destruct H as [H | H].
  - apply andb_true_iff in H. destruct H as [Ha Hex].
    destruct (call_eq_dec c a) as [-> |]; [| discriminate].
    apply existsb_exists in Hex. destruct Hex as [c' [Hin Hc']].
    destruct (call_eq_dec c' b) as [-> |]; [| discriminate].
    apply In_nth_error in Hin. destruct Hin as [n Hn].
    exists 0%nat, (S n). simpl. repeat split; auto. lia.
  - destruct (IH H) as (i & j & Hi & Hj & Hlt).
    exists (S i), (S j). simpl. repeat split; auto. lia.
Qed.

(** In a run from the initial state, order in the trace is order in time. *)
Lemma in_order_precedes (w : world) (p : prog unit) (a b : call) :
  in_order a b (calls (snd (run w p init))) = true ->
  precedes a b (trace (snd (run w p init))).
Proof.
  intro H. apply in_order_positions in H. destruct H as (i & j & Hi & Hj & Hlt).
  unfold calls in Hi, Hj. rewrite nth_error_map in Hi, Hj.
  destruct (nth_error (trace (snd (run w p init))) i) as [ea |] eqn:Hea;
    [| discriminate].
  destruct (nth_error (trace (snd (run w p init))) j) as [eb |] eqn:Heb;
    [| discriminate].
  injection Hi as Ha. injection Hj as Hb.
  exists i, j, ea, eb. repeat split; auto.
  destruct (run_chronological w p init chronological_init) as [Hord _].
  eauto.
Qed.

(** ** The shutdown sequence of [main] *)

(** Settle a goal by evaluating the run it is about. *)
Ltac by_run :=
  lazymatch goal with
  | |- precedes _ _ _ => apply in_order_precedes; vm_compute; reflexivity
  | |- _ => vm_compute; reflexivity
  end.

(** C2: the hard-shutdown sleep happens exactly when the graceful shutdown
    returned an error.  When [s.Shutdown] returns nil the only sleep of the run
    is the drain delay; when it returns an error the sleep of
    [_shutdownHardPeriod] follows it, once, and the run goes on to the tracer
    cleanup and returns from [main], with no second shutdown attempt.  The
    revision without tracing sleeps under the same condition. *)
Theorem C2_hard_sleep_iff_shutdown_error (V C : string) (w : world) :
  resource_err w = None -> exporter_err w = None ->
  let r := run w (Part000.main V C) init in
  let r1 := run w Part001.main init in
  fst r = Returned tt /\ fst r1 = Returned tt /\
  count (Server_Shutdown shutdownCtx) (trace (snd r)) = 1%nat /\
  (Shutdown_err w = None ->
     count (time_Sleep Part000._shutdownHardPeriod) (trace (snd r)) = 0%nat /\
     count_if is_sleep (trace (snd r)) = 1%nat /\
     count (time_Sleep Part001._shutdownHardPeriod) (trace (snd r1)) = 0%nat /\
     count_if is_sleep (trace (snd r1)) = 1%nat) /\
  (Shutdown_err w <> None ->
     count (time_Sleep Part000._shutdownHardPeriod) (trace (snd r)) = 1%nat /\
     count (time_Sleep Part001._shutdownHardPeriod) (trace (snd r1)) = 1%nat /\
     precedes (Server_Shutdown shutdownCtx)
              (time_Sleep Part000._shutdownHardPeriod) (trace (snd r)) /\
     precedes (time_Sleep Part000._shutdownHardPeriod)
              (tp_Shutdown shutdownCtx) (trace (snd r)) /\
     precedes (Server_Shutdown shutdownCtx)
              (time_Sleep Part001._shutdownHardPeriod) (trace (snd r1))).
Proof.
  intros Hres Hexp. open_world w.
  destruct sd_err as [e |]; cbv zeta;
    (split; [by_run | split; [by_run | split; [by_run | split]]]).
  - discriminate.
  - intros _. repeat split; by_run.
  - intros _. repeat split; by_run.
  - congruence.
Qed.

Lemma C2_witness :
  resource_err world_timeout = None /\ exporter_err world_timeout = None /\
  count (time_Sleep Part000._shutdownHardPeriod)
        (trace (snd (run world_timeout (Part000.main "v1" "abc") init))) = 1%nat.
Proof.
  split; [reflexivity | split; [reflexivity |]].
  apply (C2_hard_sleep_iff_shutdown_error "v1" "abc" world_timeout); try reflexivity.
  discriminate.
Defined.

(** C1: in every run that reaches the shutdown sequence the drain delay has
    returned before [s.Shutdown] is called, [s.Shutdown] has returned before
    the hard-shutdown sleep (when there is one) and before the tracer cleanup,
    and the tracer cleanup is called exactly once, after them, whether or not
    the graceful shutdown returned an error; [main] then returns. *)
Theorem C1_shutdown_order (V C : string) (w : world) :
  resource_err w = None -> exporter_err w = None ->
  let r := run w (Part000.main V C) init in
  let tr := trace (snd r) in
  fst r = Returned tt /\
  count (time_Sleep Part000._readinessDrainDelay) tr = 1%nat /\
  count_if is_graceful_shutdown tr = 1%nat /\
  count_if is_cleanup tr = 1%nat /\
  precedes (time_Sleep Part000._readinessDrainDelay) (Server_Shutdown shutdownCtx) tr /\
  precedes (Server_Shutdown shutdownCtx) (tp_Shutdown shutdownCtx) tr /\
  (Shutdown_err w = None -> count_if is_sleep tr = 1%nat) /\
  (Shutdown_err w <> None ->
     count_if is_sleep tr = 2%nat /\
     precedes (Server_Shutdown shutdownCtx) (time_Sleep Part000._shutdownHardPeriod) tr /\
     precedes (time_Sleep Part000._shutdownHardPeriod) (tp_Shutdown shutdownCtx) tr).
Proof.
  intros Hres Hexp. open_world w.
  destruct sd_err as [e |]; cbv zeta; do 6 (split; [by_run |]); split.
  - discriminate.
  - intros _. repeat split; by_run.
  - intros _. by_run.
  - congruence.
Qed.

Lemma C1_witness :
  resource_err world_timeout = None /\ exporter_err world_timeout = None /\
  count_if is_cleanup
    (trace (snd (run world_timeout (Part000.main "v1" "abc") init))) = 1%nat.
Proof.
  split; [reflexivity | split; [reflexivity |]].
  apply (C1_shutdown_order "v1" "abc" world_timeout); reflexivity.
Defined.

(** C8: with drain delay D = 5 s, graceful period G = 15 s and hard period
    H = 3 s, and a transport whose graceful shutdown returns within the period
    it is given, the tracer cleanup is invoked D plus the time the graceful
    shutdown took, plus H when it returned an error, after the signal was
    observed: never less than D and never more than D + G + H = 23 s. *)
Theorem C8_teardown_time_bounds (V C : string) (w : world) :
  resource_err w = None -> exporter_err w = None ->
  0 <= Shutdown_elapsed w <= Part000._shutdownPeriod ->
  let tr := trace (snd (run w (Part000.main V C) init)) in
  exists t_signal t_cleanup : Z,
    signal_received tr = Some t_signal /\
    cleanup_invoked shutdownCtx tr = Some t_cleanup /\
    t_cleanup - t_signal =
      Part000._readinessDrainDelay + Shutdown_elapsed w +
      match Shutdown_err w with
       | Some _ => Part000._shutdownHardPeriod
       | None => 0
       end /\
    Part000._readinessDrainDelay <= t_cleanup - t_signal /\
    t_cleanup - t_signal <=
      Part000._readinessDrainDelay + Part000._shutdownPeriod + Part000._shutdownHardPeriod /\
    Part000._readinessDrainDelay + Part000._shutdownPeriod + Part000._shutdownHardPeriod
      = 23 * Second.
Proof.
  intros Hres Hexp Hel. open_world w. cbv zeta.
  exists (Z.max 0 up).
  destruct sd_err as [e |].
  - exists (Z.max 0 up + Part000._readinessDrainDelay + Z.max 0 sd_elapsed
            + Part000._shutdownHardPeriod).
    split; [by_run | split; [by_run |]].
    unfold Part000._readinessDrainDelay, Part000._shutdownPeriod,
      Part000._shutdownHardPeriod, Second in *. lia.
  - exists (Z.max 0 up + Part000._readinessDrainDelay + Z.max 0 sd_elapsed).
    split; [by_run | split; [by_run |]].
    unfold Part000._readinessDrainDelay, Part000._shutdownPeriod,
      Part000._shutdownHardPeriod, Second in *. lia.
Qed.

Lemma C8_witness :
  0 <= Shutdown_elapsed world_timeout <= Part000._shutdownPeriod /\
  exists t_signal t_cleanup : Z,
    signal_received (trace (snd (run world_timeout (Part000.main "v1" "abc") init)))
      = Some t_signal /\
    cleanup_invoked shutdownCtx
      (trace (snd (run world_timeout (Part000.main "v1" "abc") init))) = Some t_cleanup /\
    t_cleanup - t_signal = 23 * Second.
Proof.
  assert (H : 0 <= Shutdown_elapsed world_timeout <= Part000._shutdownPeriod)
    by (vm_compute; split; discriminate).
  split; [exact H |].
  destruct (C8_teardown_time_bounds "v1" "abc" world_timeout eq_refl eq_refl H)
    as (ts & tc & Hs & Hc & Heq & _).
  exists ts, tc. repeat split; auto.
Defined.

(** C10: when the graceful shutdown ran into its deadline, the context given
    to the tracer cleanup is shutdownCtx, the one [s.Shutdown] was given, and
    when the cleanup is called its deadline has passed: the context reports
    [DeadlineExceeded] and has no time left.  The cleanup is still called,
    once, its result is logged, and [main] returns whether or not the flush
    returned an error. *)
Theorem C10_cleanup_context_expired (V C : string) (w : world) :
  resource_err w = None -> exporter_err w = None ->
  Shutdown_err w = Some DeadlineExceeded ->
  Shutdown_contract w Part000._shutdownPeriod ->
  let r := run w (Part000.main V C) init in
  let tr := trace (snd r) in
  fst r = Returned tt /\
  count_if is_cleanup tr = 1%nat /\
  count (tp_Shutdown shutdownCtx) tr = 1%nat /\
  count (Server_Shutdown shutdownCtx) tr = 1%nat /\
  (exists s_cleanup : state,
      state_at_call w is_cleanup (Part000.main V C) init = Some s_cleanup /\
      expired s_cleanup = true /\
      remaining s_cleanup = 0 /\
      ctx_Err s_cleanup shutdownCtx = Some DeadlineExceeded) /\
  precedes (tp_Shutdown shutdownCtx)
           (slog_Log Error match flush_err w with
                           | Some _ => "cleanup tracer failed"
                           | None => "cleanup tracer succeeded"
                           end) tr.
Proof.
  intros Hres Hexp Herr [Hel Hdl]. specialize (Hdl Herr). open_world w.
  cbv zeta. do 4 (split; [by_run |]). split.
  - remember (state_at_call _ is_cleanup (Part000.main V C) init) as o eqn:Ho.
    assert (Hd : option_map deadline o =
                 Some (Some (Z.max 0 up + Part000._readinessDrainDelay
                             + Part000._shutdownPeriod)))
      by (rewrite Ho; by_run).
    assert (Hc : option_map clock o =
                 Some (Z.max 0 up + Part000._readinessDrainDelay
                       + Part000._shutdownPeriod + Part000._shutdownHardPeriod))
      by (rewrite Ho; by_run).
    assert (Hcan : option_map shutdown_cancelled o = Some false)
      by (rewrite Ho; by_run).
    clear Ho. destruct o as [s |]; [| discriminate].
    cbn [option_map] in Hd, Hc, Hcan.
    injection Hd as Hd. injection Hc as Hc. injection Hcan as Hcan.
    exists s. split; [reflexivity |].
    assert (Hexpd : expired s = true).
    { unfold expired. rewrite Hd, Hc. apply Z.leb_le.
      unfold Part000._readinessDrainDelay, Part000._shutdownPeriod,
        Part000._shutdownHardPeriod, Second. lia. }
    split; [exact Hexpd |]. split.
    + unfold remaining. rewrite Hd, Hc.
      unfold Part000._readinessDrainDelay, Part000._shutdownPeriod,
        Part000._shutdownHardPeriod, Second. lia.
    + unfold ctx_Err. rewrite Hcan, Hexpd. reflexivity.
  - destruct fl_err; by_run.
Qed.

Lemma C10_witness :
  Shutdown_contract world_timeout Part000._shutdownPeriod /\
  count_if is_cleanup
    (trace (snd (run world_timeout (Part000.main "v1" "abc") init))) = 1%nat.
Proof.
  assert (H : Shutdown_contract world_timeout Part000._shutdownPeriod).
  { split; [vm_compute; split; discriminate | reflexivity]. }
  split; [exact H |].
  apply (C10_cleanup_context_expired "v1" "abc" world_timeout eq_refl eq_refl eq_refl H).
Defined.

(** ** The serving context *)

(** The claim of C7 as stated fails: on the timeout path
    [stopOngoingGracefully] is not called after the hard-shutdown sleep, nor
    after the tracer cleanup; when the hard-shutdown sleep starts the serving
    context is already cancelled. *)
Lemma C7_counterexample :
  let p := Part000.main "v1" "abc" in
  let tr := trace (snd (run world_timeout p init)) in
  ~ precedes (time_Sleep Part000._shutdownHardPeriod) stopOngoingGracefully tr /\
  ~ precedes (tp_Shutdown shutdownCtx) stopOngoingGracefully tr /\
  option_map ongoing_done (state_at_call world_timeout is_hard_sleep p init) = Some true.
Proof.
  cbv zeta. split; [| split].
  - intro H. apply precedesb_complete in H. vm_compute in H. discriminate.
  - intro H. apply precedesb_complete in H. vm_compute in H. discriminate.
  - vm_compute. reflexivity.
Qed.

(** C7, amended: the transport serves on ongoingCtx, which no signal cancels:
    under any delivery of signals it is cancelled only once
    [stopOngoingGracefully] has been called.  [main] calls it once, after the
    signal was observed, after the drain delay and after [s.Shutdown] has
    returned (the context is still live when [s.Shutdown] is called), and
    before the hard-shutdown sleep and the tracer cleanup. *)
Theorem C7_serving_context_cancelled_after_graceful_shutdown
        (V C : string) (w : world) :
  resource_err w = None -> exporter_err w = None ->
  let p := Part000.main V C in
  let tr := trace (snd (run w p init)) in
  let tr1 := trace (snd (run w Part001.main init)) in
  (forall sched : list action,
      let s := state_of (exec w sched (Running p init)) in
      ongoing_done s = true -> In stopOngoingGracefully (calls s)) /\
  count_if (serves_on ongoingCtx) tr = 1%nat /\
  count stopOngoingGracefully tr = 1%nat /\
  option_map ongoing_done (state_at_call w is_graceful_shutdown p init) = Some false /\
  option_map ongoing_done (state_at_call w is_cleanup p init) = Some true /\
  precedes rootCtx_Done stopOngoingGracefully tr /\
  precedes (time_Sleep Part000._readinessDrainDelay) stopOngoingGracefully tr /\
  precedes (Server_Shutdown shutdownCtx) stopOngoingGracefully tr /\
  precedes stopOngoingGracefully (tp_Shutdown shutdownCtx) tr /\
  precedes (Server_Shutdown shutdownCtx) stopOngoingGracefully tr1 /\
  (Shutdown_err w <> None ->
     precedes stopOngoingGracefully (time_Sleep Part000._shutdownHardPeriod) tr /\
     precedes stopOngoingGracefully (time_Sleep Part001._shutdownHardPeriod) tr1 /\
     option_map ongoing_done (state_at_call w is_hard_sleep p init) = Some true).
Proof.
  intros Hres Hexp. cbv zeta. split.
  - intros sched. apply (exec_ongoing w sched (Running (Part000.main V C) init)).
    intro H. discriminate.
  - open_world w.
    destruct sd_err as [e |]; do 9 (split; [by_run |]).
    + intros _. repeat split; by_run.
    + congruence.
Qed.

Lemma C7_witness :
  resource_err world_timeout = None /\ exporter_err world_timeout = None /\
  precedes stopOngoingGracefully (time_Sleep Part000._shutdownHardPeriod)
           (trace (snd (run world_timeout (Part000.main "v1" "abc") init))).
Proof.
  split; [reflexivity | split; [reflexivity |]].
  apply (C7_serving_context_cancelled_after_graceful_shutdown
           "v1" "abc" world_timeout eq_refl eq_refl).
  discriminate.
Defined.

(** ** The tracer *)

(** The claim of C9 as stated fails: with version [1.2.3] and commit
    [abc1234] the service version is not [1.2.3@abc1234]. *)
Lemma C9_counterexample :
  service_version
    (trace (snd (run world_fast (Part000.newTracer "1.2.3" "abc1234" ongoingCtx) init)))
  <> Some "1.2.3@abc1234".
Proof. vm_compute. discriminate. Qed.

(** C9, amended: the service-version attribute of the resource is the commit
    identifier, then ['@'], then the version identifier, in both revisions of
    [newTracer]. *)
Theorem C9_service_version_is_commit_at_version
        (Version Commit : string) (w : world) (c : ctx) :
  service_version (trace (snd (run w (Part000.newTracer Version Commit c) init)))
    = Some (Commit ++ "@" ++ Version)%string /\
  service_version (trace (snd (run w (CmdServer.newTracer Version Commit c) init)))
    = Some (Commit ++ "@" ++ Version)%string.
Proof.
  open_world w.
  destruct res_err as [e |], exp_err as [e' |]; split; by_run.
Qed.

(** C5: in src/cmd/server/tracer.go the error of the exporter's construction
    is not looked at: when the resource is built and the exporter is not,
    [newTracer] goes on to install the tracer provider and returns its
    cleanup, where the revision of src/unnamed/part_000 panics with the error.
    A failure to build the resource makes both panic. *)
Theorem C5_exporter_error_ignored (V C : string) (w : world) (c : ctx) (e : error) :
  resource_err w = None -> exporter_err w = Some e ->
  (exists cleanup, fst (run w (CmdServer.newTracer V C c) init) = Returned cleanup) /\
  count otel_SetTracerProvider
        (trace (snd (run w (CmdServer.newTracer V C c) init))) = 1%nat /\
  fst (run w (Part000.newTracer V C c) init) = Panicked e /\
  fst (run w (Part000.main V C) init) = Panicked e.
Proof.
  intros Hres Hexp. open_world w. split; [| split; [| split]].
  - eexists. vm_compute. reflexivity.
  - by_run.
  - by_run.
  - by_run.
Qed.

Lemma C5_witness :
  resource_err world_no_exporter = None /\
  exporter_err world_no_exporter = Some (ErrOther "exporter") /\
  exists cleanup,
    fst (run world_no_exporter (CmdServer.newTracer "v1" "abc" ongoingCtx) init)
    = Returned cleanup.
Proof.
  split; [reflexivity | split; [reflexivity |]].
  apply (C5_exporter_error_ignored "v1" "abc" world_no_exporter ongoingCtx
           (ErrOther "exporter") eq_refl eq_refl).
Defined.

(** Where the construction is checked it aborts: a resource error makes both
    revisions of [newTracer] panic, and [main] with them, before the server
    is started. *)
Lemma resource_error_panics (V C : string) (w : world) (c : ctx) (e : error) :
  resource_err w = Some e ->
  fst (run w (CmdServer.newTracer V C c) init) = Panicked e /\
  fst (run w (Part000.newTracer V C c) init) = Panicked e /\
  fst (run w (Part000.main V C) init) = Panicked e /\
  count_if (serves_on ongoingCtx) (trace (snd (run w (Part000.main V C) init))) = 0%nat.
Proof.
  intros Hres. open_world w. repeat split; by_run.
Qed.

(** ** Signals *)

Lemma prefix_map {A B : Type} (f : A -> B) (l1 l2 : list A) :
  prefix l1 l2 -> prefix (map f l1) (map f l2).
Proof. intros [rest ->]. exists (map f rest). apply map_app. Qed.

Lemma prefix_cons_inv {A : Type} (a b : A) (l1 l2 : list A) :
  prefix (a :: l1) (b :: l2) -> a = b /\ prefix l1 l2.
Proof. intros [rest H]. simpl in H. injection H as -> ->. split; [reflexivity | now exists rest]. Qed.

Lemma forallb_prefix {A : Type} (f : A -> bool) (l1 l2 : list A) :
  prefix l1 l2 -> forallb f l2 = true -> forallb f l1 = true.
Proof.
  intros [rest ->] H. rewrite forallb_app in H.
  now apply andb_true_iff in H.
Qed.

Lemma notif_of_snoc (l : list call) (c : call) :
  notif_of (l ++ [c]) =
  match c with
  | signal_NotifyContext => true
  | stop => false
  | _ => notif_of l
  end.
Proof. unfold notif_of. rewrite fold_left_app. reflexivity. Qed.

(** Whether signals are relayed is decided by the calls made so far. *)
Lemma handle_notifying (w : world) (c : call) (s : state) :
  notifying s = notif_of (calls s) ->
  notifying (snd (handle w c s)) = notif_of (calls (snd (handle w c s))).
Proof.
  intro H. rewrite calls_handle, notif_of_snoc.
  destruct c; simpl; auto.
  destruct (expired s); auto.
Qed.

Lemma exec_notifying (w : world) (sched : list action) :
  forall pr, notifying (state_of pr) = notif_of (calls (state_of pr)) ->
             notifying (state_of (exec w sched pr))
             = notif_of (calls (state_of (exec w sched pr))).
Proof.
  induction sched as [| a sched IH]; intros pr Hinv; [exact Hinv |].
  cbn [exec fold_left]. apply IH.
  destruct a; cbn [act].
  - destruct pr as [[u | e | c k] s | x s]; cbn [step state_of] in *; auto.
    destruct (enabled c s); cbn [state_of]; auto using handle_notifying.
  - destruct pr as [p s | x s]; cbn [deliver state_of] in *; auto.
    destruct (notifying s) eqn:Hs; cbn [state_of]; [| rewrite Hs; exact Hinv].
    change (notifying s = notif_of (calls s)). rewrite Hs. exact Hinv.
Qed.

Lemma no_notify_fold (l : list call) :
  forallb (fun c => negb (is_notify c)) l = true ->
  fold_left (fun b c => match c with
                        | signal_NotifyContext => true
                        | stop => false
                        | _ => b
                        end) l false = false.
Proof.
  induction l as [| c l IH]; simpl; [reflexivity |].
  intro H. apply andb_true_iff in H. destruct H as [Hc Hl].
  destruct c; simpl in *; auto; discriminate.
Qed.

(** Once [stop] has been called and no [signal.NotifyContext] follows, the
    signals are not relayed. *)
Lemma stopped_not_notifying (L : list call) :
  no_renotify L = true ->
  forall l b, prefix l L -> In stop l ->
    fold_left (fun b c => match c with
                          | signal_NotifyContext => true
                          | stop => false
                          | _ => b
                          end) l b = false.
Proof.
  induction L as [| c L IH]; intros HL l b Hpre Hin.
  - destruct Hpre as [rest H]. destruct l; [destruct Hin | discriminate].
  - destruct l as [| c' l]; [destruct Hin |].
    apply prefix_cons_inv in Hpre. destruct Hpre as [-> Hpre].
    simpl in HL. destruct (is_stop c) eqn:Hc.
    + destruct c; try discriminate. simpl.
      apply no_notify_fold. eapply forallb_prefix; eauto.
    + destruct Hin as [Heq | Hin]; [subst; discriminate |].
      simpl. apply IH; auto.
Qed.

Lemma notified_not_stopped (l : list call) :
  forall b, (b = true \/ In signal_NotifyContext l) -> ~ In stop l ->
    fold_left (fun b c => match c with
                          | signal_NotifyContext => true
                          | stop => false
                          | _ => b
                          end) l b = true.
Proof.
  induction l as [| c l IH]; intros b Hb Hns; simpl.
  - destruct Hb as [Hb | []]. exact Hb.
  - assert (Hc : c <> stop) by (intro; apply Hns; now left).
    assert (Hl : ~ In stop l) by (intro; apply Hns; now right).
    destruct c; try congruence; apply IH; auto;
      destruct Hb as [Hb | [Hb | Hb]]; auto; discriminate.
Qed.

(** [main] registers the signals once, before it ever calls [stop]. *)
Lemma main_no_renotify (V C : string) (w : world) :
  no_renotify (calls (snd (run w (Part000.main V C) init))) = true.
Proof.
  open_world w.
  destruct res_err as [e1 |], exp_err as [e2 |], sd_err as [e3 |]; by_run.
Qed.

Lemma main_counts (V C : string) (w : world) :
  let tr := trace (snd (run w (Part000.main V C) init)) in
  (count_if is_cleanup tr <= 1)%nat /\
  (count_if is_graceful_shutdown tr <= 1)%nat /\
  (count_if is_sleep tr <= 2)%nat.
Proof.
  open_world w.
  destruct res_err as [e1 |], exp_err as [e2 |], sd_err as [e3 |];
    vm_compute; repeat split; repeat constructor.
Qed.

(** The claim of C6 as stated fails: a second signal after [stop()] ends the
    process on the spot.  With one signal [main] returns and has cleaned up
    once; with a second one after the drain delay the process is killed
    before the graceful shutdown and the cleanup, which is then not invoked.
    A second signal that arrives before [stop()] is absorbed. *)
Lemma C6_counterexample :
  let p := Part000.main "v1" "abc" in
  let one := exec world_fast sched_one_signal (Running p init) in
  let two := exec world_fast sched_two_signals (Running p init) in
  let at_once := exec world_fast sched_two_signals_at_once (Running p init) in
  status_of one = Some Exit0 /\
  count_if is_cleanup (trace (state_of one)) = 1%nat /\
  status_of two = Some Killed /\
  count_if is_sleep (trace (state_of two)) = 1%nat /\
  count_if is_graceful_shutdown (trace (state_of two)) = 0%nat /\
  count_if is_cleanup (trace (state_of two)) = 0%nat /\
  status_of at_once = Some Exit0 /\
  count_if is_cleanup (trace (state_of at_once)) = 1%nat.
Proof. cbv zeta. repeat split; vm_compute; reflexivity. Qed.

(** C6, amended: signals never restart or reorder the shutdown sequence.
    Whatever signals arrive and whenever, the calls the process has made are
    an initial part of those of the run with one signal, so the tracer cleanup
    is invoked at most once (and the graceful shutdown at most once); when
    the process ends other than by a signal it has made all of them.  A
    signal that arrives while the signals are registered and [stop] has not
    been called changes nothing but the cancellation of rootCtx; one that
    arrives after [stop] has been called ends the process at once, with
    whatever of the sequence is left not run. *)
Theorem C6_signals_cut_but_never_restart (V C : string) (w : world)
        (sched : list action) :
  let p := Part000.main V C in
  let pr := exec w sched (Running p init) in
  let s := state_of pr in
  prefix (trace s) (trace (snd (run w p init))) /\
  (count_if is_cleanup (trace s) <= 1)%nat /\
  (count_if is_graceful_shutdown (trace s) <= 1)%nat /\
  (count_if is_sleep (trace s) <= 2)%nat /\
  (forall x s', pr = Exited x s' -> x <> Killed ->
                trace s' = trace (snd (run w p init))) /\
  (forall q, pr = Running q s ->
             In signal_NotifyContext (calls s) -> ~ In stop (calls s) ->
             deliver pr = Running q (set_root_done true s)) /\
  (forall q, pr = Running q s -> In stop (calls s) ->
             deliver pr = Exited Killed s) /\
  prefix (trace (state_of (exec w sched (Running Part001.main init))))
         (trace (snd (run w Part001.main init))).
Proof.
  cbv zeta.
  destruct (exec_prefix w sched (Part000.main V C) init) as [Hpre Hexit].
  destruct (main_counts V C w) as (Hc1 & Hc2 & Hc3).
  assert (Hn : notifying (state_of (exec w sched (Running (Part000.main V C) init)))
               = notif_of (calls (state_of (exec w sched (Running (Part000.main V C) init)))))
    by (apply exec_notifying; reflexivity).
  split; [exact Hpre |].
  split; [eapply Nat.le_trans; [apply count_if_prefix, Hpre | exact Hc1] |].
  split; [eapply Nat.le_trans; [apply count_if_prefix, Hpre | exact Hc2] |].
  split; [eapply Nat.le_trans; [apply count_if_prefix, Hpre | exact Hc3] |].
  split; [exact Hexit |].
  split; [| split; [| apply exec_prefix]].
  - intros q Hq Hin Hns. rewrite Hq in *. cbn [deliver state_of] in *.
    rewrite Hn. unfold notif_of.
    rewrite (notified_not_stopped _ false); auto.
  - intros q Hq Hin. rewrite Hq in *. cbn [deliver state_of] in *.
    rewrite Hn. unfold notif_of.
    rewrite (stopped_not_notifying _ (main_no_renotify V C w)); auto.
    apply prefix_map. exact Hpre.
Qed.

(** ** The readiness gate *)

Lemma replay_app (l1 l2 : list event) :
  forall f, replay f (l1 ++ l2) =
            match replay f l1 with
            | Some g => replay g l2
            | None => None
            end.
Proof.
  induction l1 as [| e l1 IH]; intro f; simpl; [reflexivity |].
  destruct (what e); auto.
  destruct (result e); auto.
  destruct (Bool.eqb b f); auto.
Qed.

(** The flag is a register: every load returns what was stored last. *)
Lemma handle_replay (w : world) (c : call) (s : state) (f : bool) :
  replay f (trace s) = Some (available s) ->
  replay f (trace (snd (handle w c s))) = Some (available (snd (handle w c s))).
Proof.
  intro H. rewrite handle_trace, replay_app, H.
  destruct c; simpl; try reflexivity.
  - destruct (expired s); reflexivity.
  - now rewrite Bool.eqb_reflx.
Qed.

Lemma no_store_true_thread000 (r : Part000.ReadinessHandler) (o : gate_op) :
  no_store_true (gate_thread000 r o).
Proof.
  destruct o as [| req]; simpl.
  - split; [discriminate | auto].
  - split; [discriminate |]. intros _.
    split; [discriminate |]. intros [|]; simpl;
      repeat (split; [discriminate |]; intros _); auto.
Qed.

Lemma no_store_true_thread001 (o : gate_op) :
  no_store_true (gate_thread001 o).
Proof.
  destruct o as [| req]; simpl.
  - split; [discriminate | auto].
  - split; [discriminate |]. intros [|]; simpl;
      repeat (split; [discriminate |]; intros _); auto.
Qed.

Lemma Forall_set_nth {A : Type} (P : A -> Prop) (l : list A) :
  forall i x, Forall P l -> P x -> Forall P (set_nth i x l).
Proof.
  induction l as [| y l IH]; intros i x Hl Hx; simpl.
  - destruct i; constructor.
  - inversion Hl; subst. destruct i; constructor; auto.
Qed.

(** Goroutines that never store [true] leave a trace that extends the one
    they started from by calls other than [Store(true)], and that replays. *)
Lemma pool_exec_gate (w : world) (sched : list nat) :
  forall (pl : pool) (s0 : state) (tr0 : list event) (new0 : list event),
    Forall no_store_true pl ->
    trace s0 = tr0 ++ new0 ->
    Forall (fun e => what e <> atomic_Store true) new0 ->
    replay false (trace s0) = Some (available s0) ->
    let s := snd (pool_exec w sched (pl, s0)) in
    exists new,
      trace s = tr0 ++ new /\
      Forall (fun e => what e <> atomic_Store true) new /\
      replay false (trace s) = Some (available s).
Proof.
  induction sched as [| i sched IH]; intros pl s0 tr0 new0 Hpl Htr Hnew Hrep.
  - simpl. exists new0. auto.
  - cbn [pool_exec fold_left].
    assert (Hstep :
              pool_step w (pl, s0) i = (pl, s0) \/
              exists c k,
                nth_error pl i = Some (Call c k) /\
                pool_step w (pl, s0) i =
                (set_nth i (k (fst (handle w c s0))) pl, snd (handle w c s0))).
    { unfold pool_step. cbn [fst snd].
      destruct (nth_error pl i) as [[u | e | c k] |]; auto.
      right. eauto. }
    destruct Hstep as [-> | (c & k & Hi & ->)];
      [apply (IH pl s0 tr0 new0); assumption |].
    assert (Hck : no_store_true (Call c k)).
    { rewrite Forall_forall in Hpl. apply Hpl. eapply nth_error_In; eauto. }
    destruct Hck as [Hc Hk].
    apply (IH _ _ tr0
              (new0 ++ [mkEvent (clock s0) (clock (snd (effect w c s0))) c
                                (to_value c (fst (effect w c s0)))])).
    + apply Forall_set_nth; auto.
    + rewrite handle_trace, Htr, app_assoc. reflexivity.
    + apply Forall_app. split; [assumption |]. constructor; [exact Hc | constructor].
    + apply handle_replay. exact Hrep.
Qed.

(** After a [Store(false)], with no [Store(true)] to follow, every load
    returns [false]. *)
Lemma replay_false_loads (l : list event) :
  forall g,
    Forall (fun e => what e <> atomic_Store true) l ->
    replay false l = Some g ->
    forall e, In e l -> what e = atomic_Load -> result e = VBool false.
Proof.
  induction l as [| e0 l IH]; intros g Hns Hrep e Hin He; [destruct Hin |].
  inversion Hns as [| ? ? Hns0 Hnsl]; subst.
  simpl in Hrep.
  destruct Hin as [<- | Hin].
  - rewrite He in Hrep. destruct (result e0) as [| | | b]; try discriminate.
    destruct b; [discriminate | reflexivity].
  - destruct (what e0) eqn:Hw; try (eapply IH; eauto; fail).
    + destruct b; [congruence |]. eapply IH; eauto.
    + destruct (result e0) as [| | | b]; try discriminate.
      destruct (Bool.eqb b false); [| discriminate]. eapply IH; eauto.
Qed.

(** With no store in between, a load returns the value the flag had. *)
Lemma replay_no_store (l : list event) :
  forall f g,
    (forall e, In e l -> forall b, what e <> atomic_Store b) ->
    replay f l = Some g -> g = f.
Proof.
  induction l as [| e0 l IH]; intros f g Hns Hrep; simpl in Hrep.
  - congruence.
  - assert (Hl : forall e, In e l -> forall b, what e <> atomic_Store b)
      by (intros; apply Hns; now right).
    destruct (what e0) eqn:Hw; try (eapply IH; eauto; fail).
    + exfalso. eapply (Hns e0); [now left | exact Hw].
    + destruct (result e0) as [| | | b]; try discriminate.
      destruct (Bool.eqb b f); [| discriminate]. eapply IH; eauto.
Qed.

(** The flag is [false] exactly when some [Store(false)] was made. *)
Lemma replay_final (l : list event) :
  forall f g,
    Forall (fun e => what e <> atomic_Store true) l ->
    replay f l = Some g ->
    g = f && negb (existsb (is_call (atomic_Store false)) l).
Proof.
  induction l as [| e0 l IH]; intros f g Hns Hrep; simpl in Hrep.
  - injection Hrep as <-. simpl. now rewrite andb_true_r.
  - inversion Hns as [| ? ? Hns0 Hnsl]; subst. simpl.
    unfold is_call at 1.
    destruct (call_eq_dec (what e0) (atomic_Store false)) as [Heq | Hne].
    + rewrite Heq in Hrep. simpl. rewrite andb_false_r.
      rewrite (IH false g Hnsl Hrep). reflexivity.
    + simpl. destruct (what e0) eqn:Hw; try (apply IH; assumption).
      * destruct b; congruence.
      * destruct (result e0) as [| | | b]; try discriminate.
        destruct (Bool.eqb b f); [| discriminate]. apply IH; assumption.
Qed.

(** What a trace that starts with the constructor's [Store(true)], has no
    other [Store(true)] and replays, says about the flag. *)
Lemma gate_properties (e0 : event) (new : list event) (g : bool) :
  what e0 = atomic_Store true ->
  Forall (fun e => what e <> atomic_Store true) new ->
  replay false (e0 :: new) = Some g ->
  (forall i j ei ej,
      nth_error (e0 :: new) i = Some ei -> nth_error (e0 :: new) j = Some ej ->
      (i < j)%nat -> what ei = atomic_Store false -> what ej = atomic_Load ->
      result ej = VBool false) /\
  (forall j ej,
      nth_error (e0 :: new) j = Some ej -> what ej = atomic_Load ->
      (forall i ei, (i < j)%nat -> nth_error (e0 :: new) i = Some ei ->
                    what ei <> atomic_Store false) ->
      result ej = VBool true) /\
  g = negb (existsb (is_call (atomic_Store false)) (e0 :: new)).
Proof.
  intros He0 Hnew Hrep. simpl in Hrep. rewrite He0 in Hrep.
  split; [| split].
  - intros i j ei ej Hi Hj Hlt Hei Hej.
    destruct i as [| i']; [simpl in Hi; congruence |].
    destruct j as [| j']; [lia |]. simpl in Hi, Hj.
    apply nth_error_split in Hi. destruct Hi as (l1 & l2 & -> & Hlen).
    rewrite nth_error_app2 in Hj by lia.
    destruct (j' - List.length l1)%nat as [| m] eqn:Hm; [lia |]. simpl in Hj.
    apply nth_error_In in Hj.
    rewrite replay_app in Hrep.
    destruct (replay true l1) as [h |]; [| discriminate].
    simpl in Hrep. rewrite Hei in Hrep.
    apply Forall_app in Hnew. destruct Hnew as [_ Hnew].
    inversion Hnew; subst.
    eapply replay_false_loads; eauto.
  - intros j ej Hj Hej Hbefore.
    destruct j as [| j']; [simpl in Hj; congruence |]. simpl in Hj.
    apply nth_error_split in Hj. destruct Hj as (l1 & l2 & -> & Hlen).
    rewrite replay_app in Hrep.
    destruct (replay true l1) as [h |] eqn:Hl1; [| discriminate].
    assert (Hh : h = true).
    { apply (replay_no_store l1 true h); [| exact Hl1].
      intros e Hin b Hw.
      apply In_nth_error in Hin. destruct Hin as [i' Hi'].
      assert (Hlt : (i' < List.length l1)%nat)
        by (apply nth_error_Some; congruence).
      destruct b.
      - apply Forall_app in Hnew. destruct Hnew as [Hnew _].
        rewrite Forall_forall in Hnew.
        apply (Hnew e); [eapply nth_error_In; eauto | exact Hw].
      - apply (Hbefore (S i') e); [lia | | exact Hw].
        simpl. rewrite nth_error_app1 by lia. exact Hi'. }
    subst h. simpl in Hrep. rewrite Hej in Hrep.
    destruct (result ej) as [| | | b]; try discriminate.
    destruct b; [reflexivity | discriminate].
  - rewrite (replay_final new true g Hnew Hrep). simpl.
    unfold is_call at 2. rewrite He0.
    destruct (call_eq_dec (atomic_Store true) (atomic_Store false));
      [discriminate | reflexivity].
Qed.

Lemma MakeUnavailable_again (w : world) (n : nat) :
  forall s, available s = false ->
            set_trace [] (snd (run w (times n (do (atomic_Store false))) s))
            = set_trace [] s.
Proof.
  induction n as [| n IH]; intros s Hs; [reflexivity |].
  cbn [times bind do run]. 
  change (run w (bind (Ret (fst (handle w (atomic_Store false) s)))
                      (fun _ => times n (do (atomic_Store false))))
              (snd (handle w (atomic_Store false) s)))
    with (run w (times n (do (atomic_Store false)))
              (snd (handle w (atomic_Store false) s))).
  rewrite IH by reflexivity.
  destruct s. simpl in Hs. subst. reflexivity.
Qed.

Lemma pool_step_trace (w : world) (ps : pool * state) (i : nat) :
  prefix (trace (snd ps)) (trace (snd (pool_step w ps i))).
Proof.
  unfold pool_step.
  destruct (nth_error (fst ps) i) as [[u | e | c k] |]; try apply prefix_refl.
  cbn [snd]. rewrite handle_trace. now eexists.
Qed.

Lemma pool_exec_trace (w : world) (sched : list nat) :
  forall ps, prefix (trace (snd ps)) (trace (snd (pool_exec w sched ps))).
Proof.
  induction sched as [| i sched IH]; intro ps; [apply prefix_refl |].
  cbn [pool_exec fold_left].
  eapply prefix_trans; [apply (pool_step_trace w ps i) | apply IH].
Qed.

Lemma set_nth_other {A : Type} (l : list A) :
  forall i j x, i <> j -> nth_error (set_nth j x l) i = nth_error l i.
Proof.
  induction l as [| y l IH]; intros i j x Hne; simpl.
  - destruct j; reflexivity.
  - destruct j as [| j'], i as [| i']; simpl; try reflexivity; try congruence.
    apply IH. congruence.
Qed.

(** A goroutine that is about to store [false] has done so once it was
    scheduled. *)
Lemma pool_exec_unalive (w : world) (sched : list nat) :
  forall (pl : pool) (s0 : state) (i : nat) (k : unit -> prog unit),
    nth_error pl i = Some (Call (atomic_Store false) k) ->
    In i sched ->
    existsb (is_call (atomic_Store false)) (trace (snd (pool_exec w sched (pl, s0))))
    = true.
Proof.
  induction sched as [| j sched IH]; intros pl s0 i k Hi Hin; [destruct Hin |].
  cbn [pool_exec fold_left].
  destruct (Nat.eq_dec j i) as [-> | Hne].
  - destruct (pool_exec_trace w sched (pool_step w (pl, s0) i)) as [rest Hr].
    change (fold_left (pool_step w) sched (pool_step w (pl, s0) i))
      with (pool_exec w sched (pool_step w (pl, s0) i)).
    rewrite Hr. rewrite existsb_app. apply orb_true_iff. left.
    unfold pool_step. cbn [fst snd]. rewrite Hi. cbn [snd].
    rewrite handle_trace, existsb_app. apply orb_true_iff. right.
    simpl. unfold is_call. simpl.
    destruct (call_eq_dec (atomic_Store false) (atomic_Store false)); [reflexivity | congruence].
  - destruct Hin as [Heq | Hin]; [congruence |].
    unfold pool_step at 2. cbn [fst snd].
    destruct (nth_error pl j) as [[u | e | c k'] |] eqn:Hj;
      try (apply (IH pl s0 i k); assumption).
    apply (IH _ _ i k); [| assumption].
    rewrite set_nth_other by congruence. exact Hi.
Qed.

(** C3: the flag is [true] once the handler is built; goroutines that serve
    requests and call [MakeUnavailable], however many and however their calls
    are interleaved, leave a trace in which every load after a
    [Store(false)] returned [false] and every load before the first one
    returned [true]; the flag ends [false] exactly when [MakeUnavailable] ran
    at least once, as it has once a goroutine that calls it was scheduled,
    and calling it again changes nothing in the state.  Both revisions of the
    handler behave so, and in both [MakeUnavailable] leaves the flag
    [false]. *)
Theorem C3_readiness_flag_monotonic
        (w : world) (name : string) (ops : list gate_op) (sched : list nat) :
  let r := Part000.mkReadinessHandler name in
  let built := run w (Part000.NewReadinessHandler name) init in
  let built1 := run w Part001.NewReadinessHandler init in
  let s := snd (pool_exec w sched (map (gate_thread000 r) ops, snd built)) in
  let s1 := snd (pool_exec w sched (map gate_thread001 ops, snd built1)) in
  fst built = Returned r /\ available (snd built) = true /\
  available (snd built1) = true /\
  flag_monotonic (trace s) /\ flag_monotonic (trace s1) /\
  available s = negb (existsb (is_call (atomic_Store false)) (trace s)) /\
  available s1 = negb (existsb (is_call (atomic_Store false)) (trace s1)) /\
  (forall i : nat,
      nth_error ops i = Some OpMakeUnavailable -> In i sched ->
      available s = false /\ available s1 = false) /\
  (forall (n : nat) (s' : state),
      available (snd (run w (Part000.MakeUnavailable r) s')) = false /\
      available (snd (run w Part001.MakeUnavailable s')) = false /\
      set_trace [] (snd (run w (times (S n) (Part000.MakeUnavailable r)) s'))
      = set_trace [] (snd (run w (Part000.MakeUnavailable r) s')) /\
      set_trace [] (snd (run w (times (S n) Part001.MakeUnavailable) s'))
      = set_trace [] (snd (run w Part001.MakeUnavailable s'))).
Proof.
  cbv zeta. unfold flag_monotonic.
  split; [reflexivity |]. split; [reflexivity |]. split; [reflexivity |].
  destruct (pool_exec_gate w sched
              (map (gate_thread000 (Part000.mkReadinessHandler name)) ops)
              (snd (run w (Part000.NewReadinessHandler name) init))
              [mkEvent 0 0 (atomic_Store true) VUnit] [])
    as (new & Htr & Hnew & Hrep);
    [apply Forall_forall; intros p Hp; apply in_map_iff in Hp;
     destruct Hp as (o & <- & _); apply no_store_true_thread000
    | reflexivity | constructor | reflexivity |].
  destruct (pool_exec_gate w sched
              (map gate_thread001 ops)
              (snd (run w Part001.NewReadinessHandler init))
              [mkEvent 0 0 (atomic_Store true) VUnit] [])
    as (new1 & Htr1 & Hnew1 & Hrep1);
    [apply Forall_forall; intros p Hp; apply in_map_iff in Hp;
     destruct Hp as (o & <- & _); apply no_store_true_thread001
    | reflexivity | constructor | reflexivity |].
  simpl app in Htr, Htr1.
  rewrite Htr in Hrep. rewrite Htr1 in Hrep1.
  destruct (gate_properties (mkEvent 0 0 (atomic_Store true) VUnit) new _
              eq_refl Hnew Hrep) as (Ha & Hb & Hc).
  destruct (gate_properties (mkEvent 0 0 (atomic_Store true) VUnit) new1 _
              eq_refl Hnew1 Hrep1) as (Ha1 & Hb1 & Hc1).
  rewrite <- Htr in Ha, Hb, Hc. rewrite <- Htr1 in Ha1, Hb1, Hc1.
  split; [split; assumption |]. split; [split; assumption |].
  split; [exact Hc |]. split; [exact Hc1 |].
  split.
  { intros i Hi Hin.
    assert (E : existsb (is_call (atomic_Store false))
                  (trace (snd (pool_exec w sched
                                 (map (gate_thread000 (Part000.mkReadinessHandler name)) ops,
                                  snd (run w (Part000.NewReadinessHandler name) init)))))
                = true).
    { apply (pool_exec_unalive w sched _ _ i Ret); [| exact Hin].
      rewrite nth_error_map, Hi. reflexivity. }
    assert (E1 : existsb (is_call (atomic_Store false))
                   (trace (snd (pool_exec w sched
                                  (map gate_thread001 ops,
                                   snd (run w Part001.NewReadinessHandler init)))))
                 = true).
    { apply (pool_exec_unalive w sched _ _ i Ret); [| exact Hin].
      rewrite nth_error_map, Hi. reflexivity. }
    split.
    - exact (eq_trans Hc (f_equal negb E)).
    - exact (eq_trans Hc1 (f_equal negb E1)). }
  intros n s'. split; [reflexivity |]. split; [reflexivity |].
  split.
  - unfold Part000.MakeUnavailable.
    cbn [times bind do run].
    change (run w (bind (Ret (fst (handle w (atomic_Store false) s')))
                        (fun _ => times n (do (atomic_Store false))))
                (snd (handle w (atomic_Store false) s')))
      with (run w (times n (do (atomic_Store false)))
                (snd (handle w (atomic_Store false) s'))).
    rewrite MakeUnavailable_again by reflexivity. reflexivity.
  - unfold Part001.MakeUnavailable.
    cbn [times bind do run].
    change (run w (bind (Ret (fst (handle w (atomic_Store false) s')))
                        (fun _ => times n (do (atomic_Store false))))
                (snd (handle w (atomic_Store false) s')))
      with (run w (times n (do (atomic_Store false)))
                (snd (handle w (atomic_Store false) s'))).
    rewrite MakeUnavailable_again by reflexivity. reflexivity.
Qed.

(** Two requests and a call of [MakeUnavailable] between them, interleaved
    call by call: the first load returns [true], the second [false]. *)
Example gate_example :
  let r := Part000.mkReadinessHandler "http.handler.readiness" in
  let req := mkRequest "kube-probe/1.30" in
  let s0 := snd (run world_fast (Part000.NewReadinessHandler "http.handler.readiness") init) in
  let s := snd (pool_exec world_fast [0; 2; 0; 1; 2; 0; 2; 0; 2; 0; 2]%nat
                          (map (gate_thread000 r)
                               [OpServeHTTP req; OpMakeUnavailable; OpServeHTTP req],
                           s0)) in
  loads (trace s) = [true; false] /\
  map status (responses s) = [StatusOK; StatusServiceUnavailable] /\
  available s = false.
Proof. vm_compute. repeat split; reflexivity. Qed.

(** The claim of C4 as stated fails on the body: what the handler writes
    when the flag is [true] is not the two bytes [OK], and when it is [false]
    not [Shutting down]: [http.Error] ends the message with a newline. *)
Lemma C4_counterexample :
  let r := Part000.mkReadinessHandler "http.handler.readiness" in
  let req := mkRequest "kube-probe/1.30" in
  responses (snd (run world_fast (Part000.ServeHTTP r req) (set_available true init)))
    <> [mkResponse 200 "OK"] /\
  responses (snd (run world_fast (Part000.ServeHTTP r req) (set_available false init)))
    <> [mkResponse 503 "Shutting down"] /\
  map status
      (responses (snd (run world_fast (Part000.ServeHTTP r req) (set_available true init))))
    = [200] /\
  map status
      (responses (snd (run world_fast (Part000.ServeHTTP r req) (set_available false init))))
    = [503].
Proof.
  cbv zeta. repeat split; vm_compute; try reflexivity; discriminate.
Qed.

(** C4, amended: every request the health handler serves gets one response,
    decided by the value of the flag alone: status 200 and the line [OK] when
    it is [true], status 503 and the line [Shutting down] when it is [false],
    each body ending in a newline.  The handler returns and does not change
    the flag.  Both revisions of the handler behave so. *)
Theorem C4_health_response (w : world) (r : Part000.ReadinessHandler)
        (req : Request) (s : state) :
  let expected :=
    if available s
    then mkResponse 200 ("OK" ++ newline)
    else mkResponse 503 ("Shutting down" ++ newline) in
  let s' := snd (run w (Part000.ServeHTTP r req) s) in
  let s1 := snd (run w (Part001.ServeHTTP req) s) in
  fst (run w (Part000.ServeHTTP r req) s) = Returned tt /\
  fst (run w (Part001.ServeHTTP req) s) = Returned tt /\
  responses s' = responses s ++ [expected] /\
  responses s1 = responses s ++ [expected] /\
  available s' = available s /\
  available s1 = available s.
Proof.
  destruct s as [t tr n rd od dl sc av rs]. cbv zeta.
  destruct av; repeat split; vm_compute; reflexivity.
Qed.

(** * The process over its lifetime *)

(** ** The flag while the server runs *)

Lemma flag_of_snoc (l : list call) (c : call) :
  flag_of (l ++ [c]) = match c with
                       | atomic_Store v => v
                       | _ => flag_of l
                       end.
Proof. unfold flag_of. rewrite fold_left_app. reflexivity. Qed.

(** The flag holds what was stored last. *)
Lemma handle_available (w : world) (c : call) (s : state) :
  available s = flag_of (calls s) ->
  available (snd (handle w c s)) = flag_of (calls (snd (handle w c s))).
Proof.
  intro H. rewrite calls_handle, flag_of_snoc.
  destruct c; simpl; auto.
  destruct (expired s); auto.
Qed.

Lemma exec_available (w : world) (sched : list action) :
  forall pr, available (state_of pr) = flag_of (calls (state_of pr)) ->
             available (state_of (exec w sched pr))
             = flag_of (calls (state_of (exec w sched pr))).
Proof.
  induction sched as [| a sched IH]; intros pr Hinv; [exact Hinv |].
  cbn [exec fold_left]. apply IH.
  destruct a; cbn [act].
  - destruct pr as [[u | e | c k] s | x s]; cbn [step state_of] in *; auto.
    destruct (enabled c s); cbn [state_of]; auto using handle_available.
  - destruct pr as [p s | x s]; cbn [deliver state_of] in *; auto.
    destruct (notifying s); cbn [state_of]; auto.
Qed.

Lemma stored_true_fold (l : list call) :
  forall b, (b = true \/ In (atomic_Store true) l) ->
            ~ In (atomic_Store false) l ->
            fold_left (fun b c => match c with
                                  | atomic_Store v => v
                                  | _ => b
                                  end) l b = true.
Proof.
  induction l as [| c l IH]; intros b Hb Hns; simpl.
  - destruct Hb as [Hb | []]. exact Hb.
  - assert (Hl : ~ In (atomic_Store false) l) by (intro; apply Hns; now right).
    destruct c; try (apply IH; auto; destruct Hb as [Hb | [Hb | Hb]]; auto; discriminate).
    destruct b0.
    + apply IH; auto.
    + exfalso. apply Hns. now left.
Qed.

Lemma no_store_true_fold (l : list call) :
  forallb (fun c' => if call_eq_dec c' (atomic_Store true) then false else true) l = true ->
  fold_left (fun b c => match c with
                        | atomic_Store v => v
                        | _ => b
                        end) l false = false.
Proof.
  induction l as [| c l IH]; simpl; [reflexivity |].
  intro H. apply andb_true_iff in H. destruct H as [Hc Hl].
  destruct c; auto. destruct b; [| auto].
  destruct (call_eq_dec (atomic_Store true) (atomic_Store true)); [discriminate | congruence].
Qed.

Lemma unalive_stays (L : list call) :
  no_restore L = true ->
  forall l b, prefix l L -> In (atomic_Store false) l ->
    fold_left (fun b c => match c with
                          | atomic_Store v => v
                          | _ => b
                          end) l b = false.
Proof.
  induction L as [| c L IH]; intros HL l b Hpre Hin.
  - destruct Hpre as [rest H]. destruct l; [destruct Hin | discriminate].
  - destruct l as [| c' l]; [destruct Hin |].
    apply prefix_cons_inv in Hpre. destruct Hpre as [-> Hpre].
    simpl in HL. destruct (is_unalive c) eqn:Hc.
    + destruct c; try discriminate. destruct b0; [discriminate |]. simpl.
      apply no_store_true_fold. eapply forallb_prefix; eauto.
    + destruct Hin as [Heq | Hin]; [subst; discriminate |].
      simpl. apply IH; auto.
Qed.

Lemma listening_stored (L : list call) :
  listen_after_store L = true ->
  forall l, prefix l L -> existsb is_listen l = true -> In (atomic_Store true) l.
Proof.
  induction L as [| c L IH]; intros HL l Hpre Hex.
  - destruct Hpre as [rest H]. destruct l; [discriminate | discriminate].
  - destruct l as [| c' l]; [discriminate |].
    apply prefix_cons_inv in Hpre. destruct Hpre as [-> Hpre].
    simpl in HL, Hex. destruct (is_listen c); [discriminate |].
    destruct (call_eq_dec c (atomic_Store true)) as [-> | Hne]; [now left |].
    right. apply IH; auto.
Qed.

Lemma probe000_answer (w : world) (req : Request) (s : state) :
  probe000 w req s =
  [if available s
   then mkResponse 200 ("OK" ++ newline)
   else mkResponse 503 ("Shutting down" ++ newline)].
Proof.
  unfold probe000.
  assert (H : responses (snd (run w (Part000.ServeHTTP
                                       (Part000.mkReadinessHandler "http.handler.readiness")
                                       req) s))
              = responses s ++ [if available s
                                then mkResponse 200 ("OK" ++ newline)
                                else mkResponse 503 ("Shutting down" ++ newline)]).
  { destruct s as [t tr n rd od dl sc av rs]. destruct av; vm_compute; reflexivity. }
  rewrite H. rewrite skipn_app, skipn_all, Nat.sub_diag. reflexivity.
Qed.

Lemma probe001_answer (w : world) (req : Request) (s : state) :
  probe001 w req s =
  [if available s
   then mkResponse 200 ("OK" ++ newline)
   else mkResponse 503 ("Shutting down" ++ newline)].
Proof.
  unfold probe001.
  assert (H : responses (snd (run w (Part001.ServeHTTP req) s))
              = responses s ++ [if available s
                                then mkResponse 200 ("OK" ++ newline)
                                else mkResponse 503 ("Shutting down" ++ newline)]).
  { destruct s as [t tr n rd od dl sc av rs]. destruct av; vm_compute; reflexivity. }
  rewrite H. rewrite skipn_app, skipn_all, Nat.sub_diag. reflexivity.
Qed.

Lemma main_gate_checks (V C : string) (w : world) (p : prog unit) :
  p = Part000.main V C \/ p = Part001.main ->
  no_restore (calls (snd (run w p init))) = true /\
  listen_after_store (calls (snd (run w p init))) = true.
Proof.
  intros [-> | ->]; open_world w;
    destruct res_err as [e1 |], exp_err as [e2 |], sd_err as [e3 |];
    split; vm_compute; reflexivity.
Qed.

Lemma count_pos_existsb (f : call -> bool) (tr : list event) :
  (0 < count_if f tr)%nat -> existsb f (map what tr) = true.
Proof.
  unfold count_if. induction tr as [| e tr IH]; simpl; [lia |].
  destruct (f (what e)); simpl; auto.
Qed.

(** X1: once the listener is started and as long as [MakeUnavailable] has not
    been called, the flag is [true] and a probe is answered 200, whatever
    signals have arrived; in both revisions of [main]. *)
Theorem X1_ready_while_serving (V C : string) (w : world) (p : prog unit)
        (sched : list action) (req : Request) :
  p = Part000.main V C \/ p = Part001.main ->
  let s := state_of (exec w sched (Running p init)) in
  (0 < count_if is_listen (trace s))%nat ->
  count (atomic_Store false) (trace s) = 0%nat ->
  available s = true /\
  map status (probe000 w req s) = [StatusOK] /\
  map status (probe001 w req s) = [StatusOK].
Proof.
  intros Hp s Hlisten Hun.
  destruct (main_gate_checks V C w p Hp) as [_ Hls].
  destruct (exec_prefix w sched p init) as [Hpre _].
  assert (Hav : available s = flag_of (calls s))
    by (apply exec_available; reflexivity).
  assert (Ht : available s = true).
  { rewrite Hav. unfold flag_of. apply stored_true_fold.
    - right. apply (listening_stored _ Hls).
      + apply prefix_map. exact Hpre.
      + apply count_pos_existsb. exact Hlisten.
    - unfold count in Hun. apply (count_occ_not_In call_eq_dec). exact Hun. }
  split; [exact Ht |].
  rewrite probe000_answer, probe001_answer, Ht. split; reflexivity.
Qed.

Lemma X1_witness :
  let s := state_of (exec world_fast sched_serving (Running (Part000.main "v1" "abc") init)) in
  (0 < count_if is_listen (trace s))%nat /\
  count (atomic_Store false) (trace s) = 0%nat /\
  available s = true.
Proof.
  cbv zeta.
  assert (H1 : (0 < count_if is_listen
                      (trace (state_of (exec world_fast sched_serving
                                             (Running (Part000.main "v1" "abc") init)))))%nat)
    by (vm_compute; repeat constructor).
  assert (H2 : count (atomic_Store false)
                     (trace (state_of (exec world_fast sched_serving
                                            (Running (Part000.main "v1" "abc") init)))) = 0%nat)
    by (vm_compute; reflexivity).
  split; [exact H1 | split; [exact H2 |]].
  apply (X1_ready_while_serving "v1" "abc" world_fast (Part000.main "v1" "abc")
           sched_serving (mkRequest "kube-probe/1.30") (or_introl eq_refl) H1 H2).
Defined.

(** X2: from the moment [MakeUnavailable] has stored [false] the flag stays
    [false] and every probe is answered 503, through the drain delay, the
    graceful shutdown, the hard wait and the cleanup and whatever signals
    arrive; in both revisions of [main]. *)
Theorem X2_unready_once_shutting_down (V C : string) (w : world) (p : prog unit)
        (sched : list action) (req : Request) :
  p = Part000.main V C \/ p = Part001.main ->
  let s := state_of (exec w sched (Running p init)) in
  (0 < count (atomic_Store false) (trace s))%nat ->
  available s = false /\
  map status (probe000 w req s) = [StatusServiceUnavailable] /\
  map status (probe001 w req s) = [StatusServiceUnavailable].
Proof.
  intros Hp s Hun.
  destruct (main_gate_checks V C w p Hp) as [Hnr _].
  destruct (exec_prefix w sched p init) as [Hpre _].
  assert (Hav : available s = flag_of (calls s))
    by (apply exec_available; reflexivity).
  assert (Hf : available s = false).
  { rewrite Hav. unfold flag_of. apply (unalive_stays _ Hnr).
    - apply prefix_map. exact Hpre.
    - unfold count in Hun. apply (count_occ_In call_eq_dec). exact Hun. }
  split; [exact Hf |].
  rewrite probe000_answer, probe001_answer, Hf. split; reflexivity.
Qed.

Lemma X2_witness :
  let s := state_of (exec world_timeout sched_one_signal (Running Part001.main init)) in
  (0 < count (atomic_Store false) (trace s))%nat /\ available s = false.
Proof.
  cbv zeta.
  assert (H : (0 < count (atomic_Store false)
                     (trace (state_of (exec world_timeout sched_one_signal
                                            (Running Part001.main init)))))%nat)
    by (vm_compute; repeat constructor).
  split; [exact H |].
  apply (X2_unready_once_shutting_down "v1" "abc" world_timeout Part001.main
           sched_one_signal (mkRequest "kube-probe/1.30") (or_intror eq_refl) H).
Defined.

(** ** Deferred calls *)

(** X3: when the resource or the exporter cannot be built, [main] of the
    revision with tracing panics with that error before the listener is
    started: it never waits for a signal, sleeps or creates the shutdown
    context; the deferred [stop] still runs, as the last call, and leaves the
    signals unregistered. *)
Theorem X3_startup_panic_runs_deferred_stop (V C : string) (w : world) (e : error) :
  resource_err w = Some e \/ (resource_err w = None /\ exporter_err w = Some e) ->
  let r := run w (Part000.main V C) init in
  let tr := trace (snd r) in
  fst r = Panicked e /\
  last_calls 1 (snd r) = [stop] /\
  count signal_NotifyContext tr = 1%nat /\
  count stop tr = 1%nat /\
  notifying (snd r) = false /\
  count_if is_listen tr = 0%nat /\
  count_if is_wait tr = 0%nat /\
  count_if is_sleep tr = 0%nat /\
  count_if is_cancel tr = 0%nat /\
  count_if is_cleanup tr = 0%nat.
Proof.
  intros [Hres | [Hres Hexp]]; open_world w; cbv zeta.
  - destruct exp_err; repeat split; by_run.
  - repeat split; by_run.
Qed.

Lemma X3_witness :
  (resource_err world_no_exporter = Some (ErrOther "exporter") \/
   (resource_err world_no_exporter = None /\
    exporter_err world_no_exporter = Some (ErrOther "exporter"))) /\
  last_calls 1 (snd (run world_no_exporter (Part000.main "v1" "abc") init)) = [stop].
Proof.
  assert (H : resource_err world_no_exporter = Some (ErrOther "exporter") \/
              (resource_err world_no_exporter = None /\
               exporter_err world_no_exporter = Some (ErrOther "exporter")))
    by (right; split; reflexivity).
  split; [exact H |].
  apply (X3_startup_panic_runs_deferred_stop "v1" "abc" world_no_exporter
           (ErrOther "exporter") H).
Defined.

(** X4: a shutdown that runs to the end finishes with the deferred calls in
    the reverse of the order they were deferred: [cancel], then [stop].
    [stop] is thus called twice, right after the signal and at the end, the
    signals are registered once, and [main] ends with the signals unregistered
    and rootCtx cancelled; in both revisions. *)
Theorem X4_deferred_calls_run_last_in_reverse_order (V C : string) (w : world) :
  resource_err w = None -> exporter_err w = None ->
  let r := run w (Part000.main V C) init in
  let r1 := run w Part001.main init in
  last_calls 2 (snd r) = [cancel; stop] /\
  last_calls 2 (snd r1) = [cancel; stop] /\
  count stop (trace (snd r)) = 2%nat /\ count stop (trace (snd r1)) = 2%nat /\
  count cancel (trace (snd r)) = 1%nat /\ count cancel (trace (snd r1)) = 1%nat /\
  count signal_NotifyContext (trace (snd r)) = 1%nat /\
  count signal_NotifyContext (trace (snd r1)) = 1%nat /\
  precedes rootCtx_Done stop (trace (snd r)) /\
  precedes stop (atomic_Store false) (trace (snd r)) /\
  notifying (snd r) = false /\ root_done (snd r) = true /\
  notifying (snd r1) = false /\ root_done (snd r1) = true.
Proof.
  intros Hres Hexp. open_world w. cbv zeta.
  destruct sd_err as [e |]; repeat split; by_run.
Qed.

Lemma X4_witness :
  resource_err world_fast = None /\ exporter_err world_fast = None /\
  last_calls 2 (snd (run world_fast (Part000.main "v1" "abc") init)) = [cancel; stop].
Proof.
  split; [reflexivity | split; [reflexivity |]].
  apply (X4_deferred_calls_run_last_in_reverse_order "v1" "abc" world_fast eq_refl eq_refl).
Defined.

(** ** The listener *)

(** X5: the transport is started once, on the address
    [net.JoinHostPort(os.Getenv("HOST"), os.Getenv("PORT"))] and with
    ongoingCtx as the base context of its requests; with HOST unset it
    listens on [":" ++ PORT].  The revision without tracing does so in every
    world, the one with tracing when the tracer could be built. *)
Theorem X5_listen_address (V C : string) (w : world) :
  let tr := trace (snd (run w (Part000.main V C) init)) in
  let tr1 := trace (snd (run w Part001.main init)) in
  listen_on tr1 = Some (JoinHostPort (HOST w) (PORT w), ongoingCtx) /\
  count_if is_listen tr1 = 1%nat /\
  (HOST w = "" -> listen_on tr1 = Some ((":" ++ PORT w)%string, ongoingCtx)) /\
  (resource_err w = None -> exporter_err w = None ->
   listen_on tr = Some (JoinHostPort (HOST w) (PORT w), ongoingCtx) /\
   count_if is_listen tr = 1%nat /\
   precedes (os_Getenv "HOST") (os_Getenv "PORT") tr).
Proof.
  cbv zeta. split; [| split; [| split]].
  - open_world w. destruct sd_err; by_run.
  - open_world w. destruct sd_err; by_run.
  - intro Hh. open_world w. destruct sd_err; by_run.
  - intros Hres Hexp. open_world w. destruct sd_err; repeat split; by_run.
Qed.

(** ** The timeline of the shutdown *)

(** X6: the flag is stored [false] at the instant the signal is observed,
    and [s.Shutdown] is called one drain delay, 5 s, after that store has
    returned: probes have the whole delay to see 503 before the listener
    closes; in both revisions. *)
Theorem X6_drain_window (V C : string) (w : world) :
  resource_err w = None -> exporter_err w = None ->
  let tr := trace (snd (run w (Part000.main V C) init)) in
  let tr1 := trace (snd (run w Part001.main init)) in
  exists t_unready t_shutdown : Z,
    signal_received tr = Some t_unready /\
    time_returned is_unalive tr = Some t_unready /\
    time_called is_graceful_shutdown tr = Some t_shutdown /\
    signal_received tr1 = Some t_unready /\
    time_returned is_unalive tr1 = Some t_unready /\
    time_called is_graceful_shutdown tr1 = Some t_shutdown /\
    t_shutdown - t_unready = 5 * Second.
Proof.
  intros Hres Hexp. open_world w. cbv zeta.
  exists (Z.max 0 up), (Z.max 0 up + Part000._readinessDrainDelay).
  destruct sd_err as [e |]; repeat split; try by_run;
    unfold Part000._readinessDrainDelay, Second; lia.
Qed.

Lemma X6_witness :
  resource_err world_fast = None /\ exporter_err world_fast = None /\
  exists t_unready t_shutdown : Z,
    time_returned is_unalive
      (trace (snd (run world_fast (Part000.main "v1" "abc") init))) = Some t_unready /\
    time_called is_graceful_shutdown
      (trace (snd (run world_fast (Part000.main "v1" "abc") init))) = Some t_shutdown /\
    t_shutdown - t_unready = 5 * Second.
Proof.
  split; [reflexivity | split; [reflexivity |]].
  destruct (X6_drain_window "v1" "abc" world_fast eq_refl eq_refl)
    as (t1 & t2 & _ & H1 & H2 & _ & _ & _ & H3).
  exists t1, t2. repeat split; assumption.
Defined.

(** X7: the shutdown context is created after the drain delay, so when
    [s.Shutdown] is called it has not expired and has the whole graceful
    period, 15 s, left, however long the process ran and whatever the drain
    delay took; in both revisions. *)
Theorem X7_graceful_period_starts_after_drain (V C : string) (w : world) :
  resource_err w = None -> exporter_err w = None ->
  exists s s1 : state,
    state_at_call w is_graceful_shutdown (Part000.main V C) init = Some s /\
    state_at_call w is_graceful_shutdown Part001.main init = Some s1 /\
    remaining s = 15 * Second /\ expired s = false /\
    ctx_Err s shutdownCtx = None /\
    remaining s1 = 15 * Second /\ expired s1 = false /\
    ctx_Err s1 shutdownCtx = None.
Proof.
  intros Hres Hexp. open_world w.
  remember (state_at_call _ is_graceful_shutdown (Part000.main V C) init) as o eqn:Ho.
  remember (state_at_call _ is_graceful_shutdown Part001.main init) as o1 eqn:Ho1.
  assert (Hd : option_map deadline o =
               Some (Some (Z.max 0 up + Part000._readinessDrainDelay
                           + Part000._shutdownPeriod)))
    by (rewrite Ho; by_run).
  assert (Hc : option_map clock o =
               Some (Z.max 0 up + Part000._readinessDrainDelay))
    by (rewrite Ho; by_run).
  assert (Hcan : option_map shutdown_cancelled o = Some false)
    by (rewrite Ho; by_run).
  assert (Hd1 : option_map deadline o1 =
                Some (Some (Z.max 0 up + Part000._readinessDrainDelay
                            + Part000._shutdownPeriod)))
    by (rewrite Ho1; by_run).
  assert (Hc1 : option_map clock o1 =
                Some (Z.max 0 up + Part000._readinessDrainDelay))
    by (rewrite Ho1; by_run).
  assert (Hcan1 : option_map shutdown_cancelled o1 = Some false)
    by (rewrite Ho1; by_run).
  clear Ho Ho1.
  destruct o as [s |]; [| discriminate]. destruct o1 as [s1 |]; [| discriminate].
  cbn [option_map] in *.
  injection Hd as Hd. injection Hc as Hc. injection Hcan as Hcan.
  injection Hd1 as Hd1. injection Hc1 as Hc1. injection Hcan1 as Hcan1.
  exists s, s1. split; [reflexivity | split; [reflexivity |]].
  assert (He : expired s = false).
  { unfold expired. rewrite Hd, Hc. apply Z.leb_gt.
    unfold Part000._readinessDrainDelay, Part000._shutdownPeriod, Second. lia. }
  assert (He1 : expired s1 = false).
  { unfold expired. rewrite Hd1, Hc1. apply Z.leb_gt.
    unfold Part000._readinessDrainDelay, Part000._shutdownPeriod, Second. lia. }
  unfold ctx_Err, remaining. rewrite Hd, Hc, Hd1, Hc1, Hcan, Hcan1, He, He1.
  unfold Part000._readinessDrainDelay, Part000._shutdownPeriod, Second.
  repeat split; try reflexivity; lia.
Qed.

Lemma X7_witness :
  resource_err world_fast = None /\ exporter_err world_fast = None /\
  exists s : state,
    state_at_call world_fast is_graceful_shutdown (Part000.main "v1" "abc") init = Some s /\
    remaining s = 15 * Second.
Proof.
  split; [reflexivity | split; [reflexivity |]].
  destruct (X7_graceful_period_starts_after_drain "v1" "abc" world_fast eq_refl eq_refl)
    as (s & s1 & H & _ & Hr & _).
  exists s. split; assumption.
Defined.

(** X8: the tracer cleanup is given what the graceful shutdown and the hard
    wait have left of the graceful period: 15 s less the time [s.Shutdown]
    took, less 3 s more when it returned an error, and nothing when that is
    not positive. *)
Theorem X8_cleanup_budget (V C : string) (w : world) :
  resource_err w = None -> exporter_err w = None ->
  0 <= Shutdown_elapsed w ->
  exists s : state,
    state_at_call w is_cleanup (Part000.main V C) init = Some s /\
    remaining s =
      Z.max 0 (Part000._shutdownPeriod - Shutdown_elapsed w
               - match Shutdown_err w with
                 | Some _ => Part000._shutdownHardPeriod
                 | None => 0
                 end).
Proof.
  intros Hres Hexp Hel. open_world w.
  remember (state_at_call _ is_cleanup (Part000.main V C) init) as o eqn:Ho.
  assert (Hd : option_map deadline o =
               Some (Some (Z.max 0 up + Part000._readinessDrainDelay
                           + Part000._shutdownPeriod)))
    by (rewrite Ho; destruct sd_err; by_run).
  assert (Hc : option_map clock o =
               Some (Z.max 0 up + Part000._readinessDrainDelay + Z.max 0 sd_elapsed
                     + match sd_err with
                       | Some _ => Part000._shutdownHardPeriod
                       | None => 0
                       end)).
  { rewrite Ho. destruct sd_err; [by_run |].
    rewrite Z.add_0_r. by_run. }
  clear Ho. destruct o as [s |]; [| discriminate].
  cbn [option_map] in *. injection Hd as Hd. injection Hc as Hc.
  exists s. split; [reflexivity |].
  unfold remaining. rewrite Hd, Hc.
  destruct sd_err;
    unfold Part000._readinessDrainDelay, Part000._shutdownPeriod,
      Part000._shutdownHardPeriod, Second; lia.
Qed.

Lemma X8_witness :
  resource_err world_fast = None /\ exporter_err world_fast = None /\
  0 <= Shutdown_elapsed world_fast /\
  exists s : state,
    state_at_call world_fast is_cleanup (Part000.main "v1" "abc") init = Some s /\
    remaining s = 14 * Second.
Proof.
  assert (H : 0 <= Shutdown_elapsed world_fast) by (vm_compute; discriminate).
  split; [reflexivity | split; [reflexivity | split; [exact H |]]].
  destruct (X8_cleanup_budget "v1" "abc" world_fast eq_refl eq_refl H) as (s & Hs & Hr).
  exists s. split; [exact Hs |]. rewrite Hr. reflexivity.
Defined.

(** * The dummy trace generator *)

Lemma on_tick_events (ctx : Generator.span_ctx) (st : Generator.gstate) :
  Generator.on_tick ctx st =
  Generator.mkG (4 + Generator.next_span st)
                (Generator.slept st + 225 * Generator.Millisecond)
                (Generator.emitted st
                 ++ Generator.tick_events ctx (Generator.next_span st)).
Proof.
  destruct st as [n t l].
  cbv [Generator.on_tick Generator.fetch_data Generator.process_data
       Generator.save_result Generator.Start Generator.AddEvent Generator.SpanEnd
       Generator.Sleep Generator.Info Generator.emit Generator.tick_events
       Generator.next_span Generator.slept Generator.emitted Nat.add].
  f_equal.
  - unfold Generator.Millisecond. lia.
  - repeat rewrite <- app_assoc. reflexivity.
Qed.

Lemma nesting_app (l1 l2 : list Generator.gevent) :
  forall stack,
    Generator.nesting stack (l1 ++ l2) =
    match Generator.nesting stack l1 with
    | Some stack' => Generator.nesting stack' l2
    | None => None
    end.
Proof.
  induction l1 as [| e l1 IH]; intro stack; simpl; [reflexivity |].
  destruct e; auto.
  - destruct stack as [| top below]; auto. destruct (Nat.eqb id top); auto.
  - destruct stack as [| top below]; auto. destruct (Nat.eqb id top); auto.
Qed.

Lemma nesting_tick (ctx : Generator.span_ctx) (n : nat) (stack : list nat) :
  Generator.nesting stack (Generator.tick_events ctx n) = Some stack.
Proof.
  unfold Generator.tick_events. simpl. now rewrite !Nat.eqb_refl.
Qed.

Lemma loop_nesting (ctx : Generator.span_ctx) (sel : list Generator.selected) :
  forall st stack,
    Generator.nesting [] (Generator.emitted st) = Some stack ->
    Generator.nesting [] (Generator.emitted (snd (Generator.loop ctx sel st)))
    = Some stack.
Proof.
  induction sel as [| [|] sel IH]; intros st stack H; simpl; auto.
  apply IH. rewrite on_tick_events. simpl.
  rewrite nesting_app, H. apply nesting_tick.
Qed.

(** X9: whatever [select] picks and for however long, the spans of the
    generator nest: every event goes to the span opened last and every end
    closes the span opened last, and whenever the loop is back at [select],
    or has returned, no span is left open. *)
Theorem X9_generator_spans_nest (ctx : Generator.span_ctx)
        (sel : list Generator.selected) :
  Generator.nesting []
    (Generator.emitted (snd (Generator.produceTraces ctx sel Generator.start)))
  = Some [].
Proof.
  unfold Generator.produceTraces.
  assert (H : Generator.nesting []
                (Generator.emitted
                   (snd (Generator.loop ctx sel
                           (Generator.emit (Generator.EvNewTicker (3 * Second))
                                           Generator.start)))) = Some [])
    by (apply loop_nesting; reflexivity).
  destruct (Generator.loop ctx sel _) as [[|] st]; simpl in *; auto.
  rewrite nesting_app, H. reflexivity.
Qed.

Lemma number_app (f : Generator.gevent -> bool) (l1 l2 : list Generator.gevent) :
  Generator.number f (l1 ++ l2) = (Generator.number f l1 + Generator.number f l2)%nat.
Proof. unfold Generator.number. now rewrite filter_app, length_app. Qed.

Lemma loop_work (ctx : Generator.span_ctx) (sel : list Generator.selected) :
  forall st,
    let r := Generator.loop ctx sel st in
    let n := Generator.processed sel in
    fst r = existsb Generator.is_done sel /\
    Generator.next_span (snd r) = (4 * n + Generator.next_span st)%nat /\
    Generator.slept (snd r) = Generator.slept st + Z.of_nat n * (225 * Generator.Millisecond) /\
    Generator.number Generator.is_start (Generator.emitted (snd r))
    = (Generator.number Generator.is_start (Generator.emitted st) + 4 * n)%nat /\
    Generator.number Generator.is_end (Generator.emitted (snd r))
    = (Generator.number Generator.is_end (Generator.emitted st) + 4 * n)%nat /\
    Generator.number Generator.is_info (Generator.emitted (snd r))
    = (Generator.number Generator.is_info (Generator.emitted st) + n)%nat /\
    Generator.number Generator.is_ticker_stop (Generator.emitted (snd r))
    = Generator.number Generator.is_ticker_stop (Generator.emitted st) /\
    Generator.number Generator.is_new_ticker (Generator.emitted (snd r))
    = Generator.number Generator.is_new_ticker (Generator.emitted st).
Proof.
  induction sel as [| [|] sel IH]; intro st; cbn [Generator.loop Generator.processed existsb Generator.is_done fst snd orb].
  - repeat split; lia.
  - repeat split; lia.
  - specialize (IH (Generator.on_tick ctx st)). cbv zeta in IH.
    destruct IH as (H1 & H2 & H3 & H4 & H5 & H6 & H7 & H8).
    rewrite on_tick_events in *.
    cbn [Generator.next_span Generator.slept Generator.emitted] in *.
    rewrite number_app in *.
    change (Generator.number Generator.is_start (Generator.tick_events ctx (Generator.next_span st))) with 4%nat in *.
    change (Generator.number Generator.is_end (Generator.tick_events ctx (Generator.next_span st))) with 4%nat in *.
    change (Generator.number Generator.is_info (Generator.tick_events ctx (Generator.next_span st))) with 1%nat in *.
    change (Generator.number Generator.is_ticker_stop (Generator.tick_events ctx (Generator.next_span st))) with 0%nat in *.
    change (Generator.number Generator.is_new_ticker (Generator.tick_events ctx (Generator.next_span st))) with 0%nat in *.
    repeat split; try assumption; try lia.
Qed.

Lemma loop_head (ctx : Generator.span_ctx) (sel : list Generator.selected)
      (e : Generator.gevent) :
  forall st, hd_error (Generator.emitted st) = Some e ->
             hd_error (Generator.emitted (snd (Generator.loop ctx sel st))) = Some e.
Proof.
  induction sel as [| [|] sel IH]; intros st Hst; simpl; auto.
  apply IH. rewrite on_tick_events. simpl.
  destruct (Generator.emitted st); [discriminate | exact Hst].
Qed.

(** X10: the generator processes the ticks selected before the first
    [ctx.Done()] and none after it.  For [n] such ticks it has made [4 n]
    spans and ended as many, logged [n] times and slept [n] times 225 ms.  It
    creates its ticker once, and stops it once when it returns; it returns
    exactly when [ctx.Done()] is selected, and otherwise waits with the
    ticker running. *)
Theorem X10_generator_work (ctx : Generator.span_ctx)
        (sel : list Generator.selected) :
  let r := Generator.produceTraces ctx sel Generator.start in
  let n := Generator.processed sel in
  let log := Generator.emitted (snd r) in
  fst r = existsb Generator.is_done sel /\
  Generator.number Generator.is_start log = (4 * n)%nat /\
  Generator.number Generator.is_end log = (4 * n)%nat /\
  Generator.number Generator.is_info log = n /\
  Generator.slept (snd r) = Z.of_nat n * (225 * Generator.Millisecond) /\
  Generator.number Generator.is_new_ticker log = 1%nat /\
  Generator.number Generator.is_ticker_stop log = (if fst r then 1 else 0)%nat /\
  hd_error log = Some (Generator.EvNewTicker (3 * Second)) /\
  (fst r = true -> last log (Generator.EvInfo "") = Generator.EvTickerStop).
Proof.
  cbv zeta. unfold Generator.produceTraces.
  pose proof (loop_work ctx sel
                (Generator.emit (Generator.EvNewTicker (3 * Second)) Generator.start)) as H.
  cbv zeta in H. destruct H as (H1 & H2 & H3 & H4 & H5 & H6 & H7 & H8).
  assert (Hhd : hd_error (Generator.emitted
                            (snd (Generator.loop ctx sel
                                    (Generator.emit (Generator.EvNewTicker (3 * Second))
                                                    Generator.start))))
                = Some (Generator.EvNewTicker (3 * Second)))
    by (apply loop_head; reflexivity).
  revert H1 H2 H3 H4 H5 H6 H7 H8 Hhd.
  destruct (Generator.loop ctx sel _) as [b st]. cbn [fst snd].
  intros H1 H2 H3 H4 H5 H6 H7 H8 Hhd.
  unfold Generator.number in *.
  destruct b; cbn [fst snd Generator.emit Generator.emitted Generator.slept];
    rewrite ?filter_app, ?length_app; simpl in *.
  - split; [exact H1 |]. split; [lia |]. split; [lia |]. split; [lia |].
    split; [lia |]. split; [lia |]. split; [lia |]. split.
    + destruct (Generator.emitted st); [discriminate | exact Hhd].
    + intros _. apply last_last.
  - split; [exact H1 |]. split; [lia |]. split; [lia |]. split; [lia |].
    split; [lia |]. split; [lia |]. split; [lia |]. split; [exact Hhd | discriminate].
Qed.

Lemma tick_parents (ctx : Generator.span_ctx) (n : nat) (l : list Generator.gevent)
      (id : nat) (parent : Generator.span_ctx) (name : string)
      (attrs : list Generator.attr) :
  In (Generator.EvStart id parent name attrs) (Generator.tick_events ctx n) ->
  (name = "dummy.operation" /\ parent = ctx) \/
  (name <> "dummy.operation" /\
   exists root,
     parent = Some root /\
     In (Generator.EvStart root ctx "dummy.operation" [])
        (l ++ Generator.tick_events ctx n) /\
     (root < id <= root + 3)%nat).
Proof.
  intro Hin.
  assert (Hroot : In (Generator.EvStart n ctx "dummy.operation" [])
                     (l ++ Generator.tick_events ctx n))
    by (apply in_or_app; right; now left).
  unfold Generator.tick_events in Hin. simpl in Hin.
  repeat match goal with
         | H : _ \/ _ |- _ => destruct H
         | H : False |- _ => destruct H
         end; try discriminate;
    match goal with
    | H : Generator.EvStart _ _ _ _ = _ |- _ => injection H as <- <- <- <-
    end.
  - left. split; reflexivity.
  - right. split; [discriminate |]. exists n. repeat split; auto; lia.
  - right. split; [discriminate |]. exists n. repeat split; auto; lia.
  - right. split; [discriminate |]. exists n. repeat split; auto; lia.
Qed.

Lemma loop_parents (ctx : Generator.span_ctx) (sel : list Generator.selected) :
  forall st,
    (forall id parent name attrs,
        In (Generator.EvStart id parent name attrs) (Generator.emitted st) ->
        (name = "dummy.operation" /\ parent = ctx) \/
        (name <> "dummy.operation" /\
         exists root,
           parent = Some root /\
           In (Generator.EvStart root ctx "dummy.operation" []) (Generator.emitted st) /\
           (root < id <= root + 3)%nat)) ->
    forall id parent name attrs,
      In (Generator.EvStart id parent name attrs)
         (Generator.emitted (snd (Generator.loop ctx sel st))) ->
      (name = "dummy.operation" /\ parent = ctx) \/
      (name <> "dummy.operation" /\
       exists root,
         parent = Some root /\
         In (Generator.EvStart root ctx "dummy.operation" [])
            (Generator.emitted (snd (Generator.loop ctx sel st))) /\
         (root < id <= root + 3)%nat).
Proof.
  induction sel as [| [|] sel IH]; intros st Hst; simpl; auto.
  apply IH. rewrite on_tick_events. simpl.
  intros id parent name attrs Hin. apply in_app_or in Hin.
  destruct Hin as [Hin | Hin].
  - destruct (Hst _ _ _ _ Hin) as [H | (Hn & root & Hp & Hr & Hlt)]; [now left |].
    right. split; [exact Hn |]. exists root.
    split; [exact Hp |]. split; [| exact Hlt].
    apply in_or_app. now left.
  - eapply tick_parents; eauto.
Qed.

(** X11: every root span, [dummy.operation], is started from the context the
    generator was given, never from the context of an earlier tick: the
    [ctx] that carries the root span is local to the loop body.  Every other
    span is a child of a root span, one of the three spans made right after
    it.  Traces are thus two levels deep however long the generator runs. *)
Theorem X11_generator_root_spans_do_not_nest (ctx : Generator.span_ctx)
        (sel : list Generator.selected) (id : nat) (parent : Generator.span_ctx)
        (name : string) (attrs : list Generator.attr) :
  let log := Generator.emitted (snd (Generator.produceTraces ctx sel Generator.start)) in
  In (Generator.EvStart id parent name attrs) log ->
  (name = "dummy.operation" /\ parent = ctx) \/
  (name <> "dummy.operation" /\
   exists root,
     parent = Some root /\
     In (Generator.EvStart root ctx "dummy.operation" []) log /\
     (root < id <= root + 3)%nat).
Proof.
  cbv zeta. unfold Generator.produceTraces. intro Hin.
  assert (Hloop :
            forall id parent name attrs,
              In (Generator.EvStart id parent name attrs)
                 (Generator.emitted
                    (snd (Generator.loop ctx sel
                            (Generator.emit (Generator.EvNewTicker (3 * Second))
                                            Generator.start)))) ->
              (name = "dummy.operation" /\ parent = ctx) \/
              (name <> "dummy.operation" /\
               exists root,
                 parent = Some root /\
                 In (Generator.EvStart root ctx "dummy.operation" [])
                    (Generator.emitted
                       (snd (Generator.loop ctx sel
                               (Generator.emit (Generator.EvNewTicker (3 * Second))
                                               Generator.start)))) /\
                 (root < id <= root + 3)%nat)).
  { apply loop_parents. simpl. intros ? ? ? ? [H | []]. discriminate. }
  destruct (Generator.loop ctx sel _) as [[|] st]; cbn [fst snd] in *;
    [| apply (Hloop id parent name attrs); exact Hin].
  cbn [Generator.emit Generator.emitted] in *.
  apply in_app_or in Hin. destruct Hin as [Hin | [Hin | []]]; [| discriminate].
  destruct (Hloop _ _ _ _ Hin) as [H | (Hn & root & Hp & Hr & Hlt)]; [now left |].
  right. split; [exact Hn |]. exists root.
  split; [exact Hp |]. split; [| exact Hlt].
  apply in_or_app. now left.
Qed.

Lemma X11_witness :
  let log := Generator.emitted
               (snd (Generator.produceTraces None
                       [Generator.Tick; Generator.Tick; Generator.CtxDone]
                       Generator.start)) in
  In (Generator.EvStart 4 None "dummy.operation" []) log /\
  ((("dummy.operation" = "dummy.operation" /\ @None nat = None) \/
    ("dummy.operation" <> "dummy.operation" /\
     exists root,
       @None nat = Some root /\
       In (Generator.EvStart root None "dummy.operation" []) log /\
       (root < 4 <= root + 3)%nat))).
Proof.
  cbv zeta.
  assert (H : In (Generator.EvStart 4 None "dummy.operation" [])
                 (Generator.emitted
                    (snd (Generator.produceTraces None
                            [Generator.Tick; Generator.Tick; Generator.CtxDone]
                            Generator.start)))).
  { vm_compute. do 17 right. now left. }
  split; [exact H |].
  apply (X11_generator_root_spans_do_not_nest None
           [Generator.Tick; Generator.Tick; Generator.CtxDone]
           4 None "dummy.operation" [] H).
Defined.

(** ** The calls of the health handler *)

Lemma skipn_map_length {A B : Type} (f : A -> B) (l rest : list A) :
  skipn (List.length l) (map f (l ++ rest)) = map f rest.
Proof.
  rewrite map_app, skipn_app, length_map, Nat.sub_diag, skipn_all2.
  - reflexivity.
  - now rewrite length_map.
Qed.

Lemma calls_from_Call {A : Type} (w : world) (c : call) (k : answer c -> prog A)
      (s : state) :
  calls_from w (Call c k) s
  = c :: calls_from w (k (fst (handle w c s))) (snd (handle w c s)).
Proof.
  unfold calls_from, calls. cbn [run].
  destruct (run_extends w (k (fst (handle w c s))) (snd (handle w c s))) as [rest Hr].
  rewrite Hr. rewrite skipn_map_length.
  rewrite handle_trace, <- app_assoc. rewrite skipn_map_length. reflexivity.
Qed.

Lemma calls_from_Ret {A : Type} (w : world) (a : A) (s : state) :
  calls_from w (Ret a) s = [].
Proof.
  unfold calls_from, calls. cbn [run snd].
  apply skipn_all2. now rewrite length_map.
Qed.

(** X12: for every request the handler of the revision with tracing starts
    one span, [healthcheck], with the request's user agent, reads the flag
    once, adds one event to the span, [healthy] with the answer 200 and
    [unhealthy] with the answer 503, writes the answer and then ends the
    span: the deferred [span.End()] is its last call. *)
Theorem X12_health_span (w : world) (r : Part000.ReadinessHandler)
        (req : Request) (s : state) :
  calls_from w (Part000.ServeHTTP r req) s =
  [tracer_Start "healthcheck" (UserAgent req);
   atomic_Load;
   span_AddEvent (if available s then "healthy" else "unhealthy");
   http_Error (if available s then "OK" else "Shutting down")
              (if available s then StatusOK else StatusServiceUnavailable);
   span_End].
Proof.
  unfold Part000.ServeHTTP. cbn [bind do defer].
  rewrite calls_from_Call. cbn [bind do defer]. f_equal.
  rewrite calls_from_Call. f_equal.
  assert (Ha : fst (handle w atomic_Load
                           (snd (handle w (tracer_Start "healthcheck" (UserAgent req)) s)))
               = available s) by reflexivity.
  rewrite Ha. destruct (available s); cbn [bind do defer].
  - rewrite !calls_from_Call. cbn [bind do defer].
    rewrite ?calls_from_Call, calls_from_Ret. reflexivity.
  - rewrite !calls_from_Call. cbn [bind do defer].
    rewrite ?calls_from_Call, calls_from_Ret. reflexivity.
Qed.

(** ** Waiting for the signal *)

Lemma step_blocked (w : world) (pr : proc) :
  blocked pr = true -> step w pr = pr.
Proof.
  destruct pr as [[u | e | c k] s | x s]; simpl; try discriminate.
  destruct c; try discriminate. simpl.
  destruct (root_done s); [discriminate | reflexivity].
Qed.

Lemma exec_app (w : world) (l1 l2 : list action) (pr : proc) :
  exec w (l1 ++ l2) pr = exec w l2 (exec w l1 pr).
Proof. unfold exec. apply fold_left_app. Qed.

Lemma exec_blocked (w : world) (n : nat) (pr : proc) :
  blocked pr = true -> exec w (repeat Step n) pr = pr.
Proof.
  intro H. induction n as [| n IH]; [reflexivity |].
  cbn [repeat exec fold_left act]. rewrite (step_blocked w pr H). exact IH.
Qed.

Lemma repeat_add {A : Type} (x : A) (n m : nat) :
  repeat x (n + m) = repeat x n ++ repeat x m.
Proof. induction n as [| n IH]; simpl; [reflexivity | now rewrite IH]. Qed.

Lemma main_blocks (V C : string) (w : world) :
  resource_err w = None -> exporter_err w = None ->
  blocked (exec w (repeat Step 20) (Running (Part000.main V C) init)) = true /\
  blocked (exec w (repeat Step 15) (Running Part001.main init)) = true.
Proof.
  intros Hres Hexp. open_world w. split; vm_compute; reflexivity.
Qed.

(** The main goroutine taken alone: without a signal it does not get past
    [<-rootCtx.Done()]. *)
Lemma main_alone_waits (V C : string) (w : world) (n : nat) :
  resource_err w = None -> exporter_err w = None ->
  let pr := exec w (repeat Step n) (Running (Part000.main V C) init) in
  let pr1 := exec w (repeat Step n) (Running Part001.main init) in
  status_of pr = None /\ status_of pr1 = None /\
  count_if begins_shutdown (trace (state_of pr)) = 0%nat /\
  count_if begins_shutdown (trace (state_of pr1)) = 0%nat /\
  (count_if is_listen (trace (state_of pr)) <> 0%nat ->
   available (state_of pr) = true) /\
  (count_if is_listen (trace (state_of pr1)) <> 0%nat ->
   available (state_of pr1) = true).
Proof.
  intros Hres Hexp. cbv zeta.
  destruct (main_blocks V C w Hres Hexp) as [Hb Hb1].
  assert (Hbig : forall m,
             exec w (repeat Step (20 + m)) (Running (Part000.main V C) init)
             = exec w (repeat Step 20) (Running (Part000.main V C) init) /\
             exec w (repeat Step (20 + m)) (Running Part001.main init)
             = exec w (repeat Step 15) (Running Part001.main init)).
  { intro m. split.
    - rewrite repeat_add, exec_app. apply exec_blocked. exact Hb.
    - replace (20 + m)%nat with (15 + (5 + m))%nat by lia.
      rewrite repeat_add, exec_app. apply exec_blocked. exact Hb1. }
  destruct (Nat.le_gt_cases 20 n) as [Hle | Hlt].
  - replace n with (20 + (n - 20))%nat by lia.
    destruct (Hbig (n - 20)%nat) as [-> ->].
    clear Hb Hb1 Hbig. open_world w.
    do 4 (split; [vm_compute; reflexivity |]).
    split; intros _; vm_compute; reflexivity.
  - clear Hb Hb1 Hbig. open_world w.
    do 20 (destruct n as [| n];
           [do 4 (split; [vm_compute; reflexivity |]);
            split; intro H;
            first [ vm_compute; reflexivity
                  | exfalso; apply H; vm_compute; reflexivity ] |]).
    exfalso. lia.
Qed.

(** ** The serving goroutine beside [main] *)

Lemma effect_same (w : world) (c : call) (s s' : state) :
  set_trace [] s = set_trace [] s' ->
  fst (effect w c s) = fst (effect w c s') /\
  set_trace [] (snd (effect w c s)) = set_trace [] (snd (effect w c s')).
Proof.
  destruct s as [t tr n rd od dl sc av rs], s' as [t' tr' n' rd' od' dl' sc' av' rs'].
  unfold set_trace. cbn [clock trace notifying root_done ongoing_done deadline
                         shutdown_cancelled available responses].
  intro H. injection H as -> -> -> -> -> -> -> ->.
  destruct c; split; try reflexivity.
  all: unfold effect, expired; cbn [deadline clock];
    destruct dl' as [d |]; [destruct (d <=? t') |]; reflexivity.
Qed.

Lemma set_trace_twice (tr : list event) (s : state) :
  set_trace [] (set_trace tr s) = set_trace [] s.
Proof. destruct s. reflexivity. Qed.

Lemma handle_same (w : world) (c : call) (s s' : state) :
  set_trace [] s = set_trace [] s' ->
  fst (handle w c s) = fst (handle w c s') /\
  set_trace [] (snd (handle w c s)) = set_trace [] (snd (handle w c s')).
Proof.
  intro H. destruct (effect_same w c s s' H) as [Ha Hs].
  unfold handle. cbn [fst snd]. rewrite !set_trace_twice. split; assumption.
Qed.

Lemma same_fields (s s' : state) :
  set_trace [] s = set_trace [] s' ->
  root_done s = root_done s' /\ notifying s = notifying s'.
Proof.
  destruct s, s'. unfold set_trace. simpl. intro H. injection H as -> -> -> -> -> -> -> ->.
  split; reflexivity.
Qed.

Lemma same_available (s s' : state) :
  set_trace [] s = set_trace [] s' -> available s = available s'.
Proof.
  destruct s, s'. unfold set_trace. simpl. intro H. injection H as -> -> -> -> -> -> -> ->.
  reflexivity.
Qed.

Lemma count_if_snoc (f : call -> bool) (tr : list event) (e : event) :
  count_if f (tr ++ [e]) = (count_if f tr + if f (what e) then 1 else 0)%nat.
Proof.
  rewrite count_if_app. unfold count_if at 2. simpl.
  destruct (f (what e)); reflexivity.
Qed.

Lemma count_if_handle (w : world) (f : call -> bool) (c : call) (s : state) :
  count_if f (trace (snd (handle w c s)))
  = (count_if f (trace s) + if f c then 1 else 0)%nat.
Proof. rewrite handle_trace, count_if_snoc. reflexivity. Qed.

Lemma step_sim (w : world) (f : call -> bool) (a b : proc) :
  sim f a b -> sim f (step w a) (step w b).
Proof.
  destruct a as [p s | x s], b as [p' s' | x' s']; cbn [sim step];
    try contradiction; try (intro H; exact H).
  intros (<- & Hs & Hc).
  destruct p as [u | e | c k]; cbn [sim];
    try (split; [reflexivity | split; assumption]).
  destruct (same_fields s s' Hs) as [Hrd _].
  assert (He : enabled c s = enabled c s') by (destruct c; simpl; auto).
  rewrite <- He. destruct (enabled c s); cbn [sim];
    [| split; [reflexivity | split; assumption]].
  destruct (handle_same w c s s' Hs) as [Ha Hs'].
  rewrite <- Ha. split; [reflexivity |]. split; [exact Hs' |].
  rewrite !count_if_handle, Hc. reflexivity.
Qed.

Lemma deliver_sim (f : call -> bool) (a b : proc) :
  sim f a b -> sim f (deliver a) (deliver b).
Proof.
  destruct a as [p s | x s], b as [p' s' | x' s']; cbn [sim deliver];
    try contradiction; try (intro H; exact H).
  intros (<- & Hs & Hc).
  destruct (same_fields s s' Hs) as [_ Hn]. rewrite <- Hn.
  destruct (notifying s); cbn [sim];
    [| split; [reflexivity | split; assumption]].
  split; [reflexivity |]. split.
  - destruct s, s'. unfold set_trace, set_root_done in *. simpl in *.
    injection Hs as -> -> -> -> -> -> -> ->. reflexivity.
  - destruct s, s'. exact Hc.
Qed.

Lemma silent_same (w : world) (c : call) (s : state) :
  silent c = true -> set_trace [] (snd (handle w c s)) = set_trace [] s.
Proof. destruct c; try discriminate; intros _; destruct s; reflexivity. Qed.

Lemma exec_snoc (w : world) (sched : list action) (a : action) (pr : proc) :
  exec w (sched ++ [a]) pr = act w a (exec w sched pr).
Proof. unfold exec. rewrite fold_left_app. reflexivity. Qed.

Lemma pexec_snoc (w : world) (g : prog unit) (sched : list paction) (a : paction)
      (P : process) :
  pexec w g (sched ++ [a]) P = pact w g (pexec w g sched P) a.
Proof. unfold pexec. rewrite fold_left_app. reflexivity. Qed.

(** A serving goroutine that only logs leaves [main] as it would be on its
    own, up to the trace, unless it has ended the process with a panic. *)
Lemma pexec_sim (w : world) (f : call -> bool) (g p : prog unit)
      (sched : list paction) :
  quiet f g ->
  let P := pexec w g sched (boot p) in
  exists sched' : list action,
    (In Signal sched' -> In SignalArrives sched) /\
    match serving P with
    | Some q => quiet f q /\ forall e, panics q e -> panics g e
    | None => True
    end /\
    (sim f (main_of P) (exec w sched' (Running p init)) \/
     exists e s,
       main_of P = Exited (Exit2 e) s /\ panics g e /\
       set_trace [] s = set_trace [] (state_of (exec w sched' (Running p init))) /\
       count_if f (trace s)
       = count_if f (trace (state_of (exec w sched' (Running p init))))).
Proof.
  intro Hg. cbv zeta.
  induction sched as [| a sched IH] using rev_ind.
  - exists []. simpl. split; [tauto |]. split; [exact I |]. left. auto.
  - destruct IH as (sched' & Hsig & Hthr & Hmain).
    rewrite pexec_snoc.
    set (P := pexec w g sched (boot p)) in *.
    destruct a; cbn [pact].
    + (* the main goroutine *)
      destruct Hmain as [Hsim | (e & s & Hex & Hp & Hst & Hc)].
      * exists (sched' ++ [Step]). rewrite exec_snoc. cbn [act main_of serving].
        split.
        { intro H. apply in_app_or in H. destruct H as [H | [H | []]];
            [apply in_or_app; left; auto | discriminate]. }
        split.
        { destruct (spawning (main_of P)); [split; [exact Hg | auto] | exact Hthr]. }
        left. apply step_sim. exact Hsim.
      * exists sched'. cbn [main_of serving]. rewrite Hex. cbn [step spawning].
        split; [intro H; apply in_or_app; left; auto |].
        split; [exact Hthr |].
        right. exists e, s. auto.
    + (* the serving goroutine *)
      exists sched'.
      split; [intro H; apply in_or_app; left; auto |].
      unfold serve_step.
      destruct (main_of P) as [q s | x s] eqn:Hm.
      * destruct (serving P) as [[u | e | c k] |] eqn:Hs; cbn [main_of serving].
        -- split; [exact I | exact Hmain].
        -- split; [exact I |].
           destruct Hmain as [Hsim | (e' & s' & Hex & _)]; [| discriminate].
           right. exists e, s. split; [reflexivity |].
           split; [apply Hthr; reflexivity |].
           destruct (exec w sched' (Running p init)) as [q' s' | x' s'];
             cbn [sim] in Hsim; [| contradiction].
           destruct Hsim as (_ & Hst & Hc). split; [exact Hst | exact Hc].
        -- destruct Hthr as [(Hsil & Hf & Hk) Hpan].
           destruct (enabled c s); cbn [main_of serving].
           ++ split.
              { split; [apply Hk |]. intros e He. apply Hpan.
                exists (fst (handle w c s)). exact He. }
              destruct Hmain as [Hsim | (e' & s' & Hex & _)]; [| discriminate].
              left.
              destruct (exec w sched' (Running p init)) as [q' s' | x' s'];
                cbn [sim] in Hsim |- *; [| contradiction].
              destruct Hsim as (Hq & Hst & Hc).
              split; [exact Hq |]. split.
              ** rewrite (silent_same w c s Hsil). exact Hst.
              ** rewrite count_if_handle, Hf, Nat.add_0_r. exact Hc.
           ++ rewrite Hm, Hs. split; [| exact Hmain].
              split; [split; [exact Hsil | split; [exact Hf | exact Hk]] | exact Hpan].
        -- rewrite Hm, Hs. split; [exact I | exact Hmain].
      * rewrite Hm. split; [exact Hthr | exact Hmain].
    + (* a signal *)
      destruct Hmain as [Hsim | (e & s & Hex & Hp & Hst & Hc)].
      * exists (sched' ++ [Signal]). rewrite exec_snoc. cbn [act main_of serving].
        split; [intros _; apply in_or_app; right; now left |].
        split; [exact Hthr |].
        left. apply deliver_sim. exact Hsim.
      * exists sched'. cbn [main_of serving]. rewrite Hex. cbn [deliver].
        split; [intro H; apply in_or_app; left; auto |].
        split; [exact Hthr |].
        right. exists e, s. auto.
Qed.

Lemma no_signal_steps (l : list action) :
  ~ In Signal l -> l = repeat Step (List.length l).
Proof.
  induction l as [| a l IH]; intro H; [reflexivity |].
  destruct a; [| exfalso; apply H; now left].
  simpl. f_equal. apply IH. intro; apply H; now right.
Qed.

(** Without a signal the state of the process is one [main] reaches on its
    own, the log apart, and so is its status unless the goroutine has
    panicked. *)
Lemma pexec_no_signal (w : world) (f : call -> bool) (g p : prog unit)
      (sched : list paction) :
  quiet f g -> ~ In SignalArrives sched ->
  exists n : nat,
    let P := pexec w g sched (boot p) in
    let pr := exec w (repeat Step n) (Running p init) in
    set_trace [] (state_of (main_of P)) = set_trace [] (state_of pr) /\
    count_if f (trace (state_of (main_of P))) = count_if f (trace (state_of pr)) /\
    (status_of (main_of P) = status_of pr \/
     exists e, panics g e /\ status_of (main_of P) = Some (Exit2 e)).
Proof.
  intros Hg Hns.
  destruct (pexec_sim w f g p sched Hg) as (l & Hl & _ & Hm).
  exists (List.length l). cbv zeta.
  rewrite <- (no_signal_steps l) by tauto.
  destruct Hm as [Hsim | (e & s & Hex & Hp & Hst & Hc)].
  - destruct (main_of (pexec w g sched (boot p))) as [q s | x s];
      destruct (exec w l (Running p init)) as [q' s' | x' s'];
      cbn [sim] in Hsim; try contradiction;
      destruct Hsim as (Hq & Hst & Hc); cbn [state_of status_of];
      (split; [exact Hst | split; [exact Hc | left; congruence]]).
  - rewrite Hex. cbn [state_of status_of].
    split; [exact Hst | split; [exact Hc |]]. right. exists e. auto.
Qed.

Lemma serve_quiet (f : call -> bool) (listen : option error) :
  (forall (l : level) (m : string), f (slog_Log l m) = false) ->
  quiet f (Part000.serve listen) /\ quiet f (Part001.serve listen).
Proof.
  intro Hf.
  split; simpl; (split; [reflexivity | split; [apply Hf |]]);
    intros _; destruct listen as [e |]; simpl; auto;
    destruct (errors_Is_ErrServerClosed e); simpl; auto.
Qed.

Lemma serve_panics (listen : option error) (e : error) :
  panics (Part000.serve listen) e \/ panics (Part001.serve listen) e ->
  listen = Some e /\ errors_Is_ErrServerClosed e = false.
Proof.
  intros [[x H] | [x H]]; destruct listen as [e' |]; simpl in H; try contradiction;
    destruct (errors_Is_ErrServerClosed e') eqn:He; simpl in H; try contradiction;
    subst; auto.
Qed.

(** X13: without a signal the process does not begin to shut down, and it
    ends only if the listener fails.  However [main] and the serving
    goroutine are scheduled, the flag has not been stored [false], nothing
    has slept and [s.Shutdown] has not been called, and once the listener is
    started the flag is [true]; the process still runs, [main] not getting
    past [<-rootCtx.Done()], unless [s.ListenAndServe] has returned an error
    other than [http.ErrServerClosed], with which the goroutine has then
    panicked and ended the process with status 2.  When it returns such an
    error the process does end so, once [main] has started the goroutine and
    the goroutine has run; when it returns [nil] or [http.ErrServerClosed]
    the process keeps running.  In both revisions. *)
Theorem X13_runs_until_signalled_or_listener_fails
        (V C : string) (w : world) (listen : option error) (sched : list paction) :
  resource_err w = None -> exporter_err w = None ->
  ~ In SignalArrives sched ->
  let P := pexec w (Part000.serve listen) sched (boot (Part000.main V C)) in
  let P1 := pexec w (Part001.serve listen) sched (boot Part001.main) in
  let Q := pexec w (Part000.serve listen) sched_listener_returns
                 (boot (Part000.main V C)) in
  let Q1 := pexec w (Part001.serve listen) sched_listener_returns
                  (boot Part001.main) in
  count_if begins_shutdown (trace (state_of (main_of P))) = 0%nat /\
  count_if begins_shutdown (trace (state_of (main_of P1))) = 0%nat /\
  (count_if is_listen (trace (state_of (main_of P))) <> 0%nat ->
   available (state_of (main_of P)) = true) /\
  (count_if is_listen (trace (state_of (main_of P1))) <> 0%nat ->
   available (state_of (main_of P1)) = true) /\
  (status_of (main_of P) = None \/
   exists e, listen = Some e /\ errors_Is_ErrServerClosed e = false /\
             status_of (main_of P) = Some (Exit2 e)) /\
  (status_of (main_of P1) = None \/
   exists e, listen = Some e /\ errors_Is_ErrServerClosed e = false /\
             status_of (main_of P1) = Some (Exit2 e)) /\
  (forall e, listen = Some e -> errors_Is_ErrServerClosed e = false ->
             status_of (main_of Q) = Some (Exit2 e) /\
             status_of (main_of Q1) = Some (Exit2 e)) /\
  ((listen = None \/ listen = Some ErrServerClosed) ->
   status_of (main_of Q) = None /\ status_of (main_of Q1) = None).
Proof.
  intros Hres Hexp Hns. cbv zeta.
  destruct (serve_quiet begins_shutdown listen (fun _ _ => eq_refl)) as [Hq Hq1].
  destruct (serve_quiet is_listen listen (fun _ _ => eq_refl)) as [Hr Hr1].
  destruct (pexec_no_signal w begins_shutdown _ (Part000.main V C) sched Hq Hns)
    as (n & _ & Hc & Hs).
  destruct (pexec_no_signal w begins_shutdown _ Part001.main sched Hq1 Hns)
    as (n1 & _ & Hc1 & Hs1).
  destruct (pexec_no_signal w is_listen _ (Part000.main V C) sched Hr Hns)
    as (m & Ha & Hl & _).
  destruct (pexec_no_signal w is_listen _ Part001.main sched Hr1 Hns)
    as (m1 & Ha1 & Hl1 & _).
  cbv zeta in Hc, Hs, Hc1, Hs1, Ha, Hl, Ha1, Hl1.
  destruct (main_alone_waits V C w n Hres Hexp) as (Hn & _ & Hnc & _).
  destruct (main_alone_waits V C w n1 Hres Hexp) as (_ & Hn1 & _ & Hnc1 & _).
  destruct (main_alone_waits V C w m Hres Hexp) as (_ & _ & _ & _ & Hf & _).
  destruct (main_alone_waits V C w m1 Hres Hexp) as (_ & _ & _ & _ & _ & Hf1).
  cbv zeta in Hn, Hnc, Hn1, Hnc1, Hf, Hf1.
  split; [exact (eq_trans Hc Hnc) |].
  split; [exact (eq_trans Hc1 Hnc1) |].
  split.
  { intro H. rewrite (same_available _ _ Ha). apply Hf. rewrite <- Hl. exact H. }
  split.
  { intro H. rewrite (same_available _ _ Ha1). apply Hf1. rewrite <- Hl1. exact H. }
  split.
  { destruct Hs as [Hs | (e & Hp & Hs)].
    - left. exact (eq_trans Hs Hn).
    - right. exists e.
      destruct (serve_panics listen e (or_introl Hp)) as [Hle Hne]. auto. }
  split.
  { destruct Hs1 as [Hs1 | (e & Hp & Hs1)].
    - left. exact (eq_trans Hs1 Hn1).
    - right. exists e.
      destruct (serve_panics listen e (or_intror Hp)) as [Hle Hne]. auto. }
  clear - Hres Hexp. split.
  - intros e -> He. open_world w.
    destruct e; try discriminate; split; vm_compute; reflexivity.
  - intros [-> | ->]; open_world w; split; vm_compute; reflexivity.
Qed.

Lemma X13_witness :
  resource_err world_fast = None /\ exporter_err world_fast = None /\
  ~ In SignalArrives sched_listener_returns /\
  status_of (main_of (pexec world_fast
                            (Part000.serve (Some (ErrOther "listen tcp: invalid port")))
                            sched_listener_returns
                            (boot (Part000.main "v1" "abc"))))
  = Some (Exit2 (ErrOther "listen tcp: invalid port")).
Proof.
  assert (H : ~ In SignalArrives sched_listener_returns).
  { intro H. vm_compute in H.
    repeat (destruct H as [H | H]; [discriminate |]). exact H. }
  split; [reflexivity | split; [reflexivity | split; [exact H |]]].
  apply (X13_runs_until_signalled_or_listener_fails
           "v1" "abc" world_fast (Some (ErrOther "listen tcp: invalid port"))
           sched_listener_returns eq_refl eq_refl H);
    reflexivity.
Defined.

(** X14: a signal is not lost when it arrives early: whether it arrives
    while [main] still starts up (after the signals are registered, its
    third call) or while it waits, [main] goes through the whole shutdown
    sequence, the calls of the run with one signal, and returns.  A signal
    that arrives before the registration ends the process before anything is
    set up. *)
Theorem X14_early_signal_not_lost (V C : string) (w : world) (k : nat) :
  resource_err w = None -> exporter_err w = None ->
  let pr := exec w (sched_signal_after k) (Running (Part000.main V C) init) in
  ((3 <= k)%nat ->
   status_of pr = Some Exit0 /\
   trace (state_of pr) = trace (snd (run w (Part000.main V C) init)) /\
   count_if is_cleanup (trace (state_of pr)) = 1%nat) /\
  ((k < 3)%nat ->
   status_of pr = Some Killed /\
   count signal_NotifyContext (trace (state_of pr)) = 0%nat /\
   count_if is_listen (trace (state_of pr)) = 0%nat).
Proof.
  intros Hres Hexp. cbv zeta.
  assert (Hstat : ((3 <= k)%nat ->
                   status_of (exec w (sched_signal_after k)
                                   (Running (Part000.main V C) init)) = Some Exit0 /\
                   count_if is_cleanup
                     (trace (state_of (exec w (sched_signal_after k)
                                            (Running (Part000.main V C) init)))) = 1%nat) /\
                  ((k < 3)%nat ->
                   status_of (exec w (sched_signal_after k)
                                   (Running (Part000.main V C) init)) = Some Killed /\
                   count signal_NotifyContext
                     (trace (state_of (exec w (sched_signal_after k)
                                            (Running (Part000.main V C) init)))) = 0%nat /\
                   count_if is_listen
                     (trace (state_of (exec w (sched_signal_after k)
                                            (Running (Part000.main V C) init)))) = 0%nat)).
  { destruct (main_blocks V C w Hres Hexp) as [Hb _].
    unfold sched_signal_after.
    destruct (Nat.le_gt_cases 20 k) as [Hle | Hlt].
    - replace k with (20 + (k - 20))%nat by lia.
      rewrite exec_app, repeat_add, exec_app, (exec_blocked w _ _ Hb).
      clear Hb. open_world w.
      split; [intros _ | intro; exfalso; lia].
      destruct sd_err; split; vm_compute; reflexivity.
    - clear Hb. open_world w.
      do 20 (destruct k as [| k];
             [split; intro; try (exfalso; lia);
              destruct sd_err; repeat split; vm_compute; reflexivity |]).
      exfalso. lia. }
  destruct Hstat as [Hge Hlt]. split; [| exact Hlt].
  intro Hk. destruct (Hge Hk) as [Hs Hc].
  split; [exact Hs |]. split; [| exact Hc].
  destruct (exec w (sched_signal_after k) (Running (Part000.main V C) init))
    as [p s | x s] eqn:Hpr; [discriminate |].
  simpl in Hs. injection Hs as ->.
  destruct (exec_prefix w (sched_signal_after k) (Part000.main V C) init) as [_ Hex].
  apply (Hex Exit0 s Hpr). discriminate.
Qed.

Lemma X14_witness :
  resource_err world_fast = None /\ exporter_err world_fast = None /\
  (3 <= 5)%nat /\
  status_of (exec world_fast (sched_signal_after 5)
                  (Running (Part000.main "v1" "abc") init)) = Some Exit0.
Proof.
  assert (H : (3 <= 5)%nat) by lia.
  split; [reflexivity | split; [reflexivity | split; [exact H |]]].
  apply (X14_early_signal_not_lost "v1" "abc" world_fast 5 eq_refl eq_refl). exact H.
Defined.

(** ** The two revisions of [main] *)

(** X15: the revision with tracing keeps the shutdown protocol of the one
    without: leaving out the calls made for the tracer and its log lines, the
    two make the same calls in the same order, with the same arguments, on
    both the normal and the timeout path. *)
Theorem X15_tracing_keeps_the_protocol (V C : string) (w : world) :
  resource_err w = None -> exporter_err w = None ->
  filter (fun c => negb (tracing_call c))
         (calls (snd (run w (Part000.main V C) init)))
  = calls (snd (run w Part001.main init)) /\
  filter tracing_call (calls (snd (run w Part001.main init))) = [].
Proof.
  intros Hres Hexp. open_world w.
  destruct sd_err, fl_err; split; vm_compute; reflexivity.
Qed.

Lemma X15_witness :
  resource_err world_timeout = None /\ exporter_err world_timeout = None /\
  filter (fun c => negb (tracing_call c))
         (calls (snd (run world_timeout (Part000.main "v1" "abc") init)))
  = calls (snd (run world_timeout Part001.main init)).
Proof.
  split; [reflexivity | split; [reflexivity |]].
  apply (X15_tracing_keeps_the_protocol "v1" "abc" world_timeout eq_refl eq_refl).
Defined.

(** X16: the deferred calls of [main] begin, and [main] is done, one drain
    delay plus the time of the graceful shutdown after the signal, plus the
    hard period when the shutdown returned an error, and in the revision with
    tracing plus the time of the tracer's flush: with a transport that honours
    its deadline, between 5 s and 23 s after the signal in the revision
    without tracing. *)
Theorem X16_exit_time (V C : string) (w : world) :
  resource_err w = None -> exporter_err w = None ->
  0 <= Shutdown_elapsed w <= Part001._shutdownPeriod ->
  0 <= flush_elapsed w ->
  let tr := trace (snd (run w (Part000.main V C) init)) in
  let tr1 := trace (snd (run w Part001.main init)) in
  let teardown := Part001._readinessDrainDelay + Shutdown_elapsed w
                  + match Shutdown_err w with
                    | Some _ => Part001._shutdownHardPeriod
                    | None => 0
                    end in
  exists t_signal t_exit t_exit1 : Z,
    signal_received tr = Some t_signal /\
    signal_received tr1 = Some t_signal /\
    time_called is_cancel tr = Some t_exit /\
    time_called is_cancel tr1 = Some t_exit1 /\
    t_exit1 - t_signal = teardown /\
    t_exit - t_signal = teardown + flush_elapsed w /\
    5 * Second <= t_exit1 - t_signal <= 23 * Second.
Proof.
  intros Hres Hexp Hel Hfl. open_world w. cbv zeta.
  exists (Z.max 0 up).
  destruct sd_err as [e |].
  - exists (Z.max 0 up + Part001._readinessDrainDelay + Z.max 0 sd_elapsed
            + Part001._shutdownHardPeriod + Z.max 0 fl_elapsed),
           (Z.max 0 up + Part001._readinessDrainDelay + Z.max 0 sd_elapsed
            + Part001._shutdownHardPeriod).
    do 4 (split; [by_run |]).
    unfold Part001._readinessDrainDelay, Part001._shutdownPeriod,
      Part001._shutdownHardPeriod, Second in *. lia.
  - exists (Z.max 0 up + Part001._readinessDrainDelay + Z.max 0 sd_elapsed
            + Z.max 0 fl_elapsed),
           (Z.max 0 up + Part001._readinessDrainDelay + Z.max 0 sd_elapsed).
    do 4 (split; [by_run |]).
    unfold Part001._readinessDrainDelay, Part001._shutdownPeriod,
      Part001._shutdownHardPeriod, Second in *. lia.
Qed.

Lemma X16_witness :
  0 <= Shutdown_elapsed world_fast <= Part001._shutdownPeriod /\
  0 <= flush_elapsed world_fast /\
  exists t_signal t_exit1 : Z,
    signal_received (trace (snd (run world_fast Part001.main init))) = Some t_signal /\
    time_called is_cancel (trace (snd (run world_fast Part001.main init))) = Some t_exit1 /\
    t_exit1 - t_signal = 6 * Second.
Proof.
  assert (H1 : 0 <= Shutdown_elapsed world_fast <= Part001._shutdownPeriod)
    by (vm_compute; split; discriminate).
  assert (H2 : 0 <= flush_elapsed world_fast) by (vm_compute; discriminate).
  split; [exact H1 | split; [exact H2 |]].
  destruct (X16_exit_time "v1" "abc" world_fast eq_refl eq_refl H1 H2)
    as (t & t0 & t1 & _ & Hs & _ & Hc & Ht & _).
  exists t, t1. split; [exact Hs |]. split; [exact Hc |]. rewrite Ht. reflexivity.
Defined.
